(** * Nudgy: reminder lifecycle, persistence and notification scheduling

    A shallow embedding of the logic of the [AppContent] component
    (reminder list, AsyncStorage persistence, expo-notifications
    scheduling) and the properties its specification states about it.

    Conventions of the model.
    - A JavaScript string is the list of its UTF-16 code units
      ([jsstring]); [str] turns a literal into one.
    - A [Date] is its time value: [Some t] for [t] milliseconds since the
      epoch, [None] for an Invalid Date (time value NaN).
    - Numbers that the program computes with are integers; they are
      modelled by [Z], with [None] standing for NaN where the program can
      meet it ([parseInt]).  The source computes with doubles, which are
      these integers up to 2^53 - 1 ([MAX_SAFE_INTEGER]); beyond, the
      source rounds where the model does not, and statements on the value
      that [parseInt] returns carry that bound.  A number read from JSON
      text is kept as the decimal the text writes ([number]).
    - The AsyncStorage item holds text; [JSON.stringify], [JSON.parse],
      [toISOString] and [Date.parse] are modelled on that text.
    - What the model leaves open (time zone rule, date strings outside the
      format [toISOString] writes, the number a string converts to) is a
      field of the record [Host], over which every statement quantifies.
      The conversion of a stored array or object to a primitive is
      modelled ([ToString]), with the TypeError it can throw.
    - What an operation observes of the outside world while it runs (the
      clock at each [new Date()], the value of [Math.random().toString()],
      whether the storage call throws) is a field of the record [Run].
    - Operations run one at a time, each to completion, and the calls to
      the notification backend resolve. *)

From Stdlib Require Import String Ascii.
From Stdlib Require Import ZArith NArith List Bool Lia.
Import ListNotations.
Set Warnings "-register-all".
Open Scope Z_scope.

(** ** Strings *)

(** A UTF-16 code unit. *)
Abbreviation char := N (only parsing).
Definition jsstring := list char.

Definition str (s : string) : jsstring :=
  map N_of_ascii (list_ascii_of_string s).

Definition char_eqb (a b : char) : bool := N.eqb a b.

Fixpoint jsstring_eqb (a b : jsstring) : bool :=
  match a, b with
  | [], [] => true
  | x :: a', y :: b' => char_eqb x y && jsstring_eqb a' b'
  | _, _ => false
  end.

Definition in_range (lo hi c : N) : bool := (N.leb lo c && N.leb c hi)%bool.

(** Decimal and hexadecimal digit values of a code unit. *)
Definition digit_val (c : char) : option Z :=
  if in_range 48 57 c then Some (Z.of_N c - 48) else None.

Definition hex_val (c : char) : option Z :=
  if in_range 48 57 c then Some (Z.of_N c - 48)
  else if in_range 97 102 c then Some (Z.of_N c - 87)
  else if in_range 65 70 c then Some (Z.of_N c - 55)
  else None.

(** WhiteSpace and LineTerminator code units (what [TrimString] strips). *)
Definition is_white (c : char) : bool :=
  (in_range 9 13 c || N.eqb c 32 || N.eqb c 160 || N.eqb c 5760
   || in_range 8192 8202 c || N.eqb c 8232 || N.eqb c 8233
   || N.eqb c 8239 || N.eqb c 8287 || N.eqb c 12288 || N.eqb c 65279)%bool.

Fixpoint trim_start (s : jsstring) : jsstring :=
  match s with
  | c :: r => if is_white c then trim_start r else s
  | [] => []
  end.

(** The longest prefix of [s] made of digits, as digit values. *)
Fixpoint take_digits (val : char -> option Z) (s : jsstring) : list Z :=
  match s with
  | c :: r => match val c with
              | Some d => d :: take_digits val r
              | None => []
              end
  | [] => []
  end.

Fixpoint drop_digits (val : char -> option Z) (s : jsstring) : jsstring :=
  match s with
  | c :: r => match val c with
              | Some _ => drop_digits val r
              | None => s
              end
  | [] => []
  end.

Definition digits_value (radix : Z) (ds : list Z) : Z :=
  fold_left (fun acc d => acc * radix + d) ds 0.

(** [s] without its first code unit, when that is [c]. *)
Definition expect (c : char) (s : jsstring) : option jsstring :=
  match s with
  | x :: r => if char_eqb x c then Some r else None
  | [] => None
  end.

Arguments expect c%_N s.

(** [parseInt(s)] with no radix argument: leading white space is skipped,
    a sign is read, a [0x]/[0X] prefix switches to radix 16, the longest
    run of digits is converted and whatever follows is ignored.  [None] is
    NaN (no digit found).  The result is the integer the digits write; the
    source returns the double nearest to it, the same number up to
    2^53 - 1. *)
Definition parseInt (input : jsstring) : option Z :=
  let s := trim_start input in
  let '(sign, s) :=
    match expect 45 s, expect 43 s with
    | Some r, _ => (-1, r)
    | None, Some r => (1, r)
    | None, None => (1, s)
    end in
  let '(val, radix, s) :=
    match expect 48 s with
    | Some r =>
        match expect 120 r, expect 88 r with
        | Some r', _ => (hex_val, 16, r')
        | None, Some r' => (hex_val, 16, r')
        | None, None => (digit_val, 10, s)
        end
    | None => (digit_val, 10, s)
    end in
  match take_digits val s with
  | [] => None
  | ds => Some (sign * digits_value radix ds)
  end.

(** [isNaN(x)] and [x < 1] on the result of [parseInt]; a comparison with
    NaN is false. *)
Definition isNaN (x : option Z) : bool :=
  match x with None => true | Some _ => false end.

Definition num_ltb (x : option Z) (y : Z) : bool :=
  match x with None => false | Some n => n <? y end.

(** A small option monad for the parsers below. *)
Notation "' p <- e ;; k" :=
  (match e with Some p => k | None => None end)
  (at level 61, p pattern, e at next level, right associativity).

(** ** Time values (ECMAScript Date arithmetic) *)

Definition Date := option Z.

Definition msPerDay : Z := 86400000.
Definition msPerHour : Z := 3600000.
Definition msPerMinute : Z := 60000.
Definition msPerSecond : Z := 1000.

Definition Day (t : Z) : Z := t / msPerDay.
Definition TimeWithinDay (t : Z) : Z := t mod msPerDay.

Definition InLeapYear (y : Z) : bool :=
  ((y mod 4 =? 0) && (negb (y mod 100 =? 0) || (y mod 400 =? 0)))%bool.

(** Day number of 1 January of year [y]. *)
Definition DayFromYear (y : Z) : Z :=
  365 * (y - 1970) + (y - 1969) / 4 - (y - 1901) / 100 + (y - 1601) / 400.

(** Days of the year before month [mn] (0 = January). *)
Definition days_before_month (leap : bool) (mn : Z) : Z :=
  match mn with
  | 0 => 0 | 1 => 31 | 2 => 59 | 3 => 90 | 4 => 120 | 5 => 151
  | 6 => 181 | 7 => 212 | 8 => 243 | 9 => 273 | 10 => 304 | _ => 334
  end + (if (leap && (2 <=? mn))%bool then 1 else 0).

Definition DaysInMonth (y mn : Z) : Z :=
  match mn with
  | 1 => if InLeapYear y then 29 else 28
  | 3 | 5 | 8 | 10 => 30
  | _ => 31
  end.

(** [MakeDay]: months beyond 0..11 carry into the year, and the day of the
    month is only added, so it may run past the end of the month. *)
Definition MakeDay (year month date : Z) : Z :=
  let ym := year + month / 12 in
  let mn := month mod 12 in
  DayFromYear ym + days_before_month (InLeapYear ym) mn + date - 1.

Definition MakeTime (hour min sec ms : Z) : Z :=
  hour * msPerHour + min * msPerMinute + sec * msPerSecond + ms.

Definition MakeDate (day time : Z) : Z := day * msPerDay + time.

Definition maxTime : Z := 8640000000000000.

Definition TimeClip (t : Z) : Date :=
  if Z.abs t <=? maxTime then Some t else None.

(** Year, month (0..11) and day of the month (1..31) of a day number. *)
Definition civil_from_days (day : Z) : Z * Z * Z :=
  let z := day + 719468 in
  let era := z / 146097 in
  let doe := z mod 146097 in
  let yoe := (doe - doe / 1460 + doe / 36524 - doe / 146096) / 365 in
  let doy := doe - (365 * yoe + yoe / 4 - yoe / 100) in
  let mp := (5 * doy + 2) / 153 in
  let d := doy - (153 * mp + 2) / 5 + 1 in
  let m := if mp <? 10 then mp + 2 else mp - 10 in
  (yoe + era * 400 + (if m <=? 1 then 1 else 0), m, d).

Definition YearFromTime (t : Z) : Z := fst (fst (civil_from_days (Day t))).
Definition MonthFromTime (t : Z) : Z := snd (fst (civil_from_days (Day t))).
Definition DateFromTime (t : Z) : Z := snd (civil_from_days (Day t)).

Definition HourFromTime (t : Z) : Z := (t / msPerHour) mod 24.
Definition MinFromTime (t : Z) : Z := (t / msPerMinute) mod 60.
Definition SecFromTime (t : Z) : Z := (t / msPerSecond) mod 60.
Definition msFromTime (t : Z) : Z := t mod msPerSecond.

(** *** Decimal digits *)

Definition digit_char (d : Z) : char := Z.to_N (48 + d).

(** Exactly [w] decimal digits of [n], most significant first. *)
Fixpoint pad (w : nat) (n : Z) : jsstring :=
  match w with
  | O => []
  | S w' => pad w' (n / 10) ++ [digit_char (n mod 10)]
  end.

(** Exactly [w] decimal digits at the head of [s], and the rest. *)
Fixpoint read_digits (w : nat) (acc : Z) (s : jsstring)
  : option (Z * jsstring) :=
  match w with
  | O => Some (acc, s)
  | S w' =>
      match s with
      | c :: r => ' d <- digit_val c ;; read_digits w' (acc * 10 + d) r
      | [] => None
      end
  end.

(** *** [Date.prototype.toISOString] and the matching case of [Date.parse] *)

Definition iso_year (y : Z) : jsstring :=
  if ((0 <=? y) && (y <=? 9999))%bool then pad 4 y
  else if y <? 0 then 45%N :: pad 6 (- y)
  else 43%N :: pad 6 y.

Definition toISOString (t : Z) : jsstring :=
  iso_year (YearFromTime t) ++ [45%N] ++ pad 2 (MonthFromTime t + 1)
  ++ [45%N] ++ pad 2 (DateFromTime t) ++ [84%N] ++ pad 2 (HourFromTime t)
  ++ [58%N] ++ pad 2 (MinFromTime t) ++ [58%N] ++ pad 2 (SecFromTime t)
  ++ [46%N] ++ pad 3 (msFromTime t) ++ [90%N].

Definition read_iso_year (s : jsstring) : option (Z * jsstring) :=
  match expect 43 s, expect 45 s with
  | Some r, _ => read_digits 6 0 r
  | None, Some r =>
      ' (y, r') <- read_digits 6 0 r ;;
      if y =? 0 then None else Some (- y, r')
  | None, None => read_digits 4 0 s
  end.

(** The time value of a string of the exact shape
    [YYYY-MM-DDTHH:mm:ss.sssZ] (or with an expanded year [+YYYYYY],
    [-YYYYYY]) whose fields are all in range; [None] for any other string. *)
Definition iso_parse (s : jsstring) : option Z :=
  ' (y, s) <- read_iso_year s ;;
  ' s <- expect 45 s ;;
  ' (mo, s) <- read_digits 2 0 s ;;
  ' s <- expect 45 s ;;
  ' (d, s) <- read_digits 2 0 s ;;
  ' s <- expect 84 s ;;
  ' (hh, s) <- read_digits 2 0 s ;;
  ' s <- expect 58 s ;;
  ' (mi, s) <- read_digits 2 0 s ;;
  ' s <- expect 58 s ;;
  ' (ss, s) <- read_digits 2 0 s ;;
  ' s <- expect 46 s ;;
  ' (ms, s) <- read_digits 3 0 s ;;
  match expect 90 s with
  | Some [] =>
      if ((1 <=? mo) && (mo <=? 12) && (1 <=? d)
          && (d <=? DaysInMonth y (mo - 1))
          && (hh <=? 23) && (mi <=? 59) && (ss <=? 59))%bool
      then Some (MakeDate (MakeDay y (mo - 1) d) (MakeTime hh mi ss ms))
      else None
  | _ => None
  end.

(** ** JSON values *)

(** A JSON number: an integer, or [Dec m e] for the non-integer [m / 10^e]
    ([m] not a multiple of 10). *)
Inductive number :=
| Int (z : Z)
| Dec (m : Z) (e : positive).

Inductive json :=
| JNull
| JBool (b : bool)
| JNum (n : number)
| JStr (s : jsstring)
| JArr (l : list json)
| JObj (props : list (jsstring * json)).

(** What the model leaves open: the time zone rule and the date formats
    of the host, and the conversion of strings to numbers. *)
Record Host := {
  (** offset of local time from UTC at a time value (second argument: the
      time value is UTC rather than local) *)
  LocalTZA : Z -> bool -> Z;
  (** [Date.parse] on a string that is not of the shape [iso_parse] reads *)
  Date_parse_other : jsstring -> Date;
  (** [StringToNumber(s)] ([None] is NaN) *)
  StringToNumber : jsstring -> option number
}.

Definition utc_host : Host :=
  {| LocalTZA := fun _ _ => 0;
     Date_parse_other := fun _ => None;
     StringToNumber := fun _ => None |}.

(** *** Local time *)

Definition LocalTime (h : Host) (t : Z) : Z := t + LocalTZA h t true.
Definition UTC (h : Host) (t : Z) : Z := t - LocalTZA h t false.

(** [d.getDate()] of a valid date. *)
Definition getDate (h : Host) (t : Z) : Z := DateFromTime (LocalTime h t).

(** [d.setDate(dt)]: the day of the month of [d], in local time, becomes
    [dt]; year, month and time of day are those of [d]. *)
Definition setDate (h : Host) (d : Date) (dt : Z) : Date :=
  match d with
  | None => None
  | Some t =>
      let tl := LocalTime h t in
      let day := MakeDay (YearFromTime tl) (MonthFromTime tl) dt in
      TimeClip (UTC h (MakeDate day (TimeWithinDay tl)))
  end.

Definition Date_parse (h : Host) (s : jsstring) : Date :=
  match iso_parse s with
  | Some t => TimeClip t
  | None => Date_parse_other h s
  end.

(** *** Variable-length decimal numerals *)

Fixpoint digits_fuel (fuel : nat) (n : Z) (acc : jsstring) : jsstring :=
  match fuel with
  | O => acc
  | S f =>
      let acc' := digit_char (n mod 10) :: acc in
      if n <? 10 then acc' else digits_fuel f (n / 10) acc'
  end.

(** The decimal numeral of [n >= 0]. *)
Definition digits_of (n : Z) : jsstring :=
  digits_fuel (S (Z.to_nat (Z.log2 n))) n [].

Fixpoint drop_zeros (s : jsstring) : jsstring :=
  match s with
  | 48%N :: r => drop_zeros r
  | _ => s
  end.

Definition strip_zeros (s : jsstring) : jsstring := rev (drop_zeros (rev s)).

(** [Number::toString] for the value [0.ds * 10^n], [ds] its significant
    digits. *)
Definition sci (ds : jsstring) (n : Z) : jsstring :=
  let k := Z.of_nat (length ds) in
  if ((k <=? n) && (n <=? 21))%bool then ds ++ repeat 48%N (Z.to_nat (n - k))
  else if ((0 <? n) && (n <=? 21))%bool then
    firstn (Z.to_nat n) ds ++ 46%N :: skipn (Z.to_nat n) ds
  else if ((-6 <? n) && (n <=? 0))%bool then
    48%N :: 46%N :: repeat 48%N (Z.to_nat (- n)) ++ ds
  else
    let e := n - 1 in
    let es := (if e <? 0 then 45%N else 43%N) :: digits_of (Z.abs e) in
    match ds with
    | [] => []
    | [d] => d :: 101%N :: es
    | d :: r => d :: 46%N :: r ++ 101%N :: es
    end.

Definition print_number (x : number) : jsstring :=
  match x with
  | Int z =>
      (if z <? 0 then [45%N] else [])
      ++ (if Z.abs z <? 10 ^ 21 then digits_of (Z.abs z)
          else let ds := digits_of (Z.abs z) in
               sci (strip_zeros ds) (Z.of_nat (length ds)))
  | Dec m e =>
      (if m <? 0 then [45%N] else [])
      ++ (let ds := digits_of (Z.abs m) in
          sci ds (Z.of_nat (length ds) - Z.pos e))
  end.

(** *** [JSON.stringify] on JSON values *)

Definition hex_char (d : Z) : char :=
  Z.to_N (if d <? 10 then 48 + d else 87 + d).

Definition unicode_escape (c : char) : jsstring :=
  let n := Z.of_N c in
  [92%N; 117%N; hex_char (n / 4096 mod 16); hex_char (n / 256 mod 16);
   hex_char (n / 16 mod 16); hex_char (n mod 16)].

Definition is_high (c : char) : bool := in_range 55296 56319 c.
Definition is_low (c : char) : bool := in_range 56320 57343 c.

(** [QuoteJSONString] without the surrounding quotes: short escapes,
    [\uXXXX] for other control characters and for unpaired surrogates. *)
Fixpoint quote_chars (s : jsstring) : jsstring :=
  match s with
  | [] => []
  | c :: r =>
      if N.eqb c 8 then 92%N :: 98%N :: quote_chars r
      else if N.eqb c 9 then 92%N :: 116%N :: quote_chars r
      else if N.eqb c 10 then 92%N :: 110%N :: quote_chars r
      else if N.eqb c 12 then 92%N :: 102%N :: quote_chars r
      else if N.eqb c 13 then 92%N :: 114%N :: quote_chars r
      else if N.eqb c 34 then 92%N :: 34%N :: quote_chars r
      else if N.eqb c 92 then 92%N :: 92%N :: quote_chars r
      else if N.ltb c 32 then unicode_escape c ++ quote_chars r
      else if is_high c then
        match r with
        | d :: r' =>
            if is_low d then c :: d :: quote_chars r'
            else unicode_escape c ++ quote_chars r
        | [] => unicode_escape c
        end
      else if is_low c then unicode_escape c ++ quote_chars r
      else c :: quote_chars r
  end.

Definition quote (s : jsstring) : jsstring :=
  34%N :: quote_chars s ++ [34%N].

Fixpoint join (l : list jsstring) : jsstring :=
  match l with
  | [] => []
  | x :: r => match r with
              | [] => x
              | _ :: _ => x ++ 44%N :: join r
              end
  end.

Fixpoint print (v : json) : jsstring :=
  match v with
  | JNull => str "null"
  | JBool true => str "true"
  | JBool false => str "false"
  | JNum n => print_number n
  | JStr s => quote s
  | JArr l => 91%N :: join (map print l) ++ [93%N]
  | JObj props =>
      123%N :: join (map (fun kv => quote (fst kv) ++ 58%N :: print (snd kv))
                         props) ++ [125%N]
  end.

(** *** [JSON.parse] *)

Definition is_json_ws (c : char) : bool :=
  (N.eqb c 9 || N.eqb c 10 || N.eqb c 13 || N.eqb c 32)%bool.

Fixpoint skip_ws (s : jsstring) : jsstring :=
  match s with
  | c :: r => if is_json_ws c then skip_ws r else s
  | [] => []
  end.

Fixpoint parse_literal (lit s : jsstring) : option jsstring :=
  match lit with
  | [] => Some s
  | c :: lit' => ' r <- expect c s ;; parse_literal lit' r
  end.

(** The characters of a string literal up to its closing quote. *)
Fixpoint parse_chars (s : jsstring) : option (jsstring * jsstring) :=
  match s with
  | [] => None
  | c :: r =>
      if N.eqb c 34 then Some ([], r)
      else if N.eqb c 92 then
        match r with
        | [] => None
        | e :: r1 =>
            let lit (x : char) :=
              ' (t, rest) <- parse_chars r1 ;; Some (x :: t, rest) in
            if N.eqb e 34 then lit 34%N
            else if N.eqb e 92 then lit 92%N
            else if N.eqb e 47 then lit 47%N
            else if N.eqb e 98 then lit 8%N
            else if N.eqb e 102 then lit 12%N
            else if N.eqb e 110 then lit 10%N
            else if N.eqb e 114 then lit 13%N
            else if N.eqb e 116 then lit 9%N
            else if N.eqb e 117 then
              match r1 with
              | a :: b :: c' :: d :: r2 =>
                  ' x3 <- hex_val a ;;
                  ' x2 <- hex_val b ;;
                  ' x1 <- hex_val c' ;;
                  ' x0 <- hex_val d ;;
                  ' (t, rest) <- parse_chars r2 ;;
                  Some (Z.to_N (((x3 * 16 + x2) * 16 + x1) * 16 + x0) :: t,
                        rest)
              | _ => None
              end
            else None
        end
      else if N.ltb c 32 then None
      else ' (t, rest) <- parse_chars r ;; Some (c :: t, rest)
  end.

(** The number [m * 10^(-k)], reduced. *)
Fixpoint reduce (k : nat) (m : Z) : number :=
  match k with
  | O => Int m
  | S k' => if m mod 10 =? 0 then reduce k' (m / 10)
            else Dec m (Pos.of_succ_nat k')
  end.

Definition mk_number (m e : Z) : number :=
  if 0 <=? e then Int (m * 10 ^ e) else reduce (Z.to_nat (- e)) m.

(** A JSON number: an optional minus sign, an integer part without
    leading zero, an optional fraction, an optional exponent. *)
Definition parse_unsigned (sign : Z) (s : jsstring)
  : option (number * jsstring) :=
  let ip := take_digits digit_val s in
  let s1 := drop_digits digit_val s in
  match ip with
  | [] => None
  | d :: ip' =>
      if ((d =? 0) && negb (length ip' =? 0)%nat)%bool then None else
      ' (fp, s2) <-
        match expect 46 s1 with
        | Some r =>
            match take_digits digit_val r with
            | [] => None
            | fp => Some (fp, drop_digits digit_val r)
            end
        | None => Some ([], s1)
        end ;;
      ' (ex, s3) <-
        match (match expect 101 s2 with
               | Some r => Some r
               | None => expect 69 s2
               end) with
        | Some r =>
            let '(esign, r) :=
              match expect 45 r, expect 43 r with
              | Some r', _ => (-1, r')
              | None, Some r' => (1, r')
              | None, None => (1, r)
              end in
            match take_digits digit_val r with
            | [] => None
            | ed => Some (esign * digits_value 10 ed, drop_digits digit_val r)
            end
        | None => Some (0, s2)
        end ;;
      Some (mk_number (sign * digits_value 10 (ip ++ fp))
                      (ex - Z.of_nat (length fp)), s3)
  end.

Definition parse_number (s : jsstring) : option (number * jsstring) :=
  match expect 45 s with
  | Some r => parse_unsigned (-1) r
  | None => parse_unsigned 1 s
  end.

(** Array-index property keys: canonical numerals below 2^32 - 1.  An
    object enumerates them first, in ascending order. *)
Definition index_of_key (k : jsstring) : option Z :=
  match take_digits digit_val k, drop_digits digit_val k with
  | d :: ds, [] =>
      let v := digits_value 10 (d :: ds) in
      if ((negb (d =? 0) || (length ds =? 0)%nat) && (v <? 4294967295))%bool
      then Some v else None
  | _, _ => None
  end.

Fixpoint replace_prop {A} (props : list (jsstring * A)) (k : jsstring) (v : A)
  : option (list (jsstring * A)) :=
  match props with
  | [] => None
  | (k', v') :: r =>
      if jsstring_eqb k' k then Some ((k', v) :: r)
      else ' r' <- replace_prop r k v ;; Some ((k', v') :: r')
  end.

Fixpoint insert_index {A} (props : list (jsstring * A)) (i : Z)
  (k : jsstring) (v : A) : list (jsstring * A) :=
  match props with
  | [] => [(k, v)]
  | (k', v') :: r =>
      match index_of_key k' with
      | Some j => if j <? i then (k', v') :: insert_index r i k v
                  else (k, v) :: props
      | None => (k, v) :: props
      end
  end.

(** [CreateDataProperty]: an existing key keeps its place and takes the new
    value; a new index key goes among the index keys; any other new key
    goes last. *)
Definition obj_define {A} (props : list (jsstring * A)) (k : jsstring) (v : A)
  : list (jsstring * A) :=
  match replace_prop props k v with
  | Some props' => props'
  | None =>
      match index_of_key k with
      | Some i => insert_index props i k v
      | None => props ++ [(k, v)]
      end
  end.

Fixpoint lookup {A} (props : list (jsstring * A)) (k : jsstring) : option A :=
  match props with
  | [] => None
  | (k', v) :: r => if jsstring_eqb k' k then Some v else lookup r k
  end.

Fixpoint parse_value (fuel : nat) (s : jsstring) : option (json * jsstring) :=
  match fuel with
  | O => None
  | S fuel =>
      match skip_ws s with
      | [] => None
      | c :: r =>
          if N.eqb c 123 then
            match expect 125 (skip_ws r) with
            | Some r' => Some (JObj [], r')
            | None =>
                ' (m, r') <- parse_members fuel [] r ;; Some (JObj m, r')
            end
          else if N.eqb c 91 then
            match expect 93 (skip_ws r) with
            | Some r' => Some (JArr [], r')
            | None =>
                ' (l, r') <- parse_elements fuel r ;; Some (JArr l, r')
            end
          else if N.eqb c 34 then
            ' (t, r') <- parse_chars r ;; Some (JStr t, r')
          else if N.eqb c 116 then
            ' r' <- parse_literal (str "rue") r ;; Some (JBool true, r')
          else if N.eqb c 102 then
            ' r' <- parse_literal (str "alse") r ;; Some (JBool false, r')
          else if N.eqb c 110 then
            ' r' <- parse_literal (str "ull") r ;; Some (JNull, r')
          else
            ' (n, r') <- parse_number (c :: r) ;; Some (JNum n, r')
      end
  end
with parse_elements (fuel : nat) (s : jsstring)
  : option (list json * jsstring) :=
  match fuel with
  | O => None
  | S fuel =>
      ' (v, r) <- parse_value fuel s ;;
      match expect 44 (skip_ws r), expect 93 (skip_ws r) with
      | Some r', _ => ' (l, r'') <- parse_elements fuel r' ;; Some (v :: l, r'')
      | None, Some r' => Some ([v], r')
      | None, None => None
      end
  end
with parse_members (fuel : nat) (acc : list (jsstring * json)) (s : jsstring)
  : option (list (jsstring * json) * jsstring) :=
  match fuel with
  | O => None
  | S fuel =>
      ' r <- expect 34 (skip_ws s) ;;
      ' (k, r) <- parse_chars r ;;
      ' r <- expect 58 (skip_ws r) ;;
      ' (v, r) <- parse_value fuel r ;;
      let acc' := obj_define acc k v in
      match expect 44 (skip_ws r), expect 125 (skip_ws r) with
      | Some r', _ => parse_members fuel acc' r'
      | None, Some r' => Some (acc', r')
      | None, None => None
      end
  end.

(** [JSON.parse(text)]; [None] is a SyntaxError.  Every recursive call
    consumes input, so the length of the text bounds the recursion
    (theorem [JSON_parse_fuel]). *)
Definition JSON_parse (text : jsstring) : option json :=
  ' (v, r) <- parse_value (S (length text)) text ;;
  match skip_ws r with
  | [] => Some v
  | _ => None
  end.

(** ** Reminders *)

(** The [Reminder] interface of the source. *)
Record Reminder := {
  id : jsstring;
  name : jsstring;
  time : Date;
  repeatCount : Z
}.

(** Types are erased at run time, and [loadReminders] puts whatever
    [JSON.parse] returns into the list.  The list therefore holds objects:
    ordered properties whose values are JSON values or, for [time], a
    [Date]. *)
Inductive field :=
| FJson (j : json)
| FDate (d : Date).

Definition object := list (jsstring * field).

Definition k_id : jsstring := Eval compute in str "id".
Definition k_name : jsstring := Eval compute in str "name".
Definition k_time : jsstring := Eval compute in str "time".
Definition k_repeatCount : jsstring := Eval compute in str "repeatCount".

(** The object of a well-typed reminder, properties in the order of the
    object literal in [addReminder]. *)
Definition obj (r : Reminder) : object :=
  [(k_id, FJson (JStr (id r)));
   (k_name, FJson (JStr (name r)));
   (k_time, FDate (time r));
   (k_repeatCount, FJson (JNum (Int (repeatCount r))))].

(** The string a value that [JSON.parse] returned converts to; [None] is a
    TypeError.  An array is the join of its elements ([null] counting as
    the empty string).  An object inherits [toString] and [valueOf] from
    [Object.prototype] unless it has properties of these names, which no
    JSON value makes callable: with a property [toString] of its own
    neither method yields a primitive and the conversion throws, whether
    the number or the string is asked for first; without one the result
    is "[object Object]". *)
Fixpoint ToString (v : json) : option jsstring :=
  match v with
  | JNull => Some (str "null")
  | JBool true => Some (str "true")
  | JBool false => Some (str "false")
  | JNum n => Some (print_number n)
  | JStr s => Some s
  | JArr l =>
      let fix elements (l : list json) : option (list jsstring) :=
        match l with
        | [] => Some []
        | x :: r =>
            ' sx <- match x with JNull => Some [] | _ => ToString x end ;;
            ' sr <- elements r ;;
            Some (sx :: sr)
        end in
      ' ss <- elements l ;; Some (join ss)
  | JObj props =>
      match lookup props (str "toString") with
      | Some _ => None
      | None => Some (str "[object Object]")
      end
  end.

(** Whether [ToPrimitive(v)] returns rather than throws, for a property
    value [v] ([None] is undefined). *)
Definition converts (v : option field) : bool :=
  match v with
  | Some (FJson j) => match ToString j with Some _ => true | None => false end
  | _ => true
  end.

(** [new Date(v)] for a property value [v] that converts ([None] is
    undefined): a string, or the string an array or object converts to, is
    parsed; a number is the time value, truncated to an integer. *)
Definition new_Date (h : Host) (v : option field) : Date :=
  match v with
  | None => None
  | Some (FDate d) => d
  | Some (FJson JNull) => Some 0
  | Some (FJson (JBool b)) => Some (if b then 1 else 0)
  | Some (FJson (JNum (Int z))) => TimeClip z
  | Some (FJson (JNum (Dec m e))) =>
      let q := Z.quot m (10 ^ Z.pos e) in
      if Z.abs q <? maxTime then Some q else None
  | Some (FJson j) =>
      match ToString j with
      | Some s => Date_parse h s
      | None => None
      end
  end.

(** [ToNumber(v)] for a property value [v] that converts ([None] is
    NaN). *)
Definition to_number (h : Host) (v : option field) : option number :=
  match v with
  | None => None
  | Some (FDate d) => option_map Int d
  | Some (FJson JNull) => Some (Int 0)
  | Some (FJson (JBool b)) => Some (Int (if b then 1 else 0))
  | Some (FJson (JNum n)) => Some n
  | Some (FJson j) =>
      match ToString j with
      | Some s => StringToNumber h s
      | None => None
      end
  end.

(** How many [i = 0, 1, 2, ...] satisfy [i < bound]: the iterations of
    the loop of [scheduleNotification] in which a request can be issued.
    (Past 2^53 the source's counter no longer advances and the loop does
    not end; by then every [fireDate] is long an Invalid Date, so the
    requests issued are those of the iterations counted here.) *)
Definition iterations (bound : option number) : nat :=
  match bound with
  | None => O
  | Some (Int z) => Z.to_nat z
  | Some (Dec m e) => Z.to_nat (m / 10 ^ Z.pos e + 1)
  end.

(** ** The notification backend (expo-notifications) *)

Inductive SchedulableTriggerInputTypes :=
| CALENDAR | DAILY | WEEKLY | MONTHLY | YEARLY | DATE | TIME_INTERVAL.

Record Trigger := {
  type : SchedulableTriggerInputTypes;
  seconds : Z;
  repeats : bool
}.

Record Content := {
  title : jsstring;
  body : option field
}.

Record NotificationRequest := {
  content : Content;
  trigger : Trigger
}.

Inductive BackendCall :=
| scheduleNotificationAsync (request : NotificationRequest)
| cancelAllScheduledNotificationsAsync.

(** The notifications still scheduled after a sequence of calls. *)
Definition pending (calls : list BackendCall) : list NotificationRequest :=
  fold_left (fun acc c =>
               match c with
               | scheduleNotificationAsync r => acc ++ [r]
               | cancelAllScheduledNotificationsAsync => []
               end) calls [].

(** ** scheduleNotification *)

(** [new Date(reminderTime.getTime() + i * 3600 * 1000)] *)
Definition fireDate (reminderTime : Date) (i : Z) : Date :=
  match reminderTime with
  | None => None
  | Some t => TimeClip (t + i * 3600 * 1000)
  end.

(** [fireDate > now], false for an Invalid Date. *)
Definition date_gtb (d : Date) (now : Z) : bool :=
  match d with
  | None => false
  | Some t => now <? t
  end.

(** [reminderTime] after [reminderTime.setDate(now.getDate())]. *)
Definition reminderTime (h : Host) (now : Z) (reminder : object) : Date :=
  setDate h (new_Date h (lookup reminder k_time)) (getDate h now).

Definition request_for (reminder : object) : NotificationRequest :=
  {| content := {| title := str "Reminder";
                   body := lookup reminder k_name |};
     trigger := {| type := TIME_INTERVAL;
                   seconds := 5400;
                   repeats := true |} |}.

(** Whether [scheduleNotification(reminder)] resolves: [new Date(
    reminder.time)] and the first test [i < reminder.repeatCount] throw a
    TypeError when the value does not convert, before any request. *)
Definition resolves (reminder : object) : bool :=
  (converts (lookup reminder k_time)
   && converts (lookup reminder k_repeatCount))%bool.

(** The backend calls of [scheduleNotification(reminder)] when the clock
    reads [now]. *)
Definition scheduleNotification (h : Host) (now : Z) (reminder : object)
  : list BackendCall :=
  if resolves reminder then
    let rt := reminderTime h now reminder in
    flat_map
      (fun i : nat =>
         if date_gtb (fireDate rt (Z.of_nat i)) now
         then [scheduleNotificationAsync (request_for reminder)]
         else [])
      (seq 0 (iterations (to_number h (lookup reminder k_repeatCount))))
  else [].

(** ** Persistence *)

(** [Date.prototype.toJSON] and the identity on JSON values. *)
Definition field_json (f : field) : json :=
  match f with
  | FJson j => j
  | FDate (Some t) => JStr (toISOString t)
  | FDate None => JNull
  end.

Definition to_json (o : object) : json :=
  JObj (map (fun kv => (fst kv, field_json (snd kv))) o).

(** [JSON.stringify(reminders)] *)
Definition JSON_stringify (l : list object) : jsstring :=
  print (JArr (map to_json l)).

(** The own enumerable properties that [{...r}] copies. *)
Definition spread (r : json) : object :=
  match r with
  | JObj props => map (fun kv => (fst kv, FJson (snd kv))) props
  | JArr l =>
      map (fun iv => (digits_of (Z.of_nat (fst iv)), FJson (snd iv)))
          (combine (seq 0 (length l)) l)
  | JStr s =>
      map (fun ic => (digits_of (Z.of_nat (fst ic)), FJson (JStr [snd ic])))
          (combine (seq 0 (length s)) s)
  | _ => []
  end.

(** [r.time]: [None] is a TypeError (r is null), [Some None] undefined. *)
Definition get_time (r : json) : option (option json) :=
  match r with
  | JNull => None
  | JObj props => Some (lookup props k_time)
  | _ => Some None
  end.

(** The callback of [map] in [loadReminders]:
    [{...r, time: new Date(r.time)}]; [None] when it throws. *)
Definition revive (h : Host) (r : json) : option object :=
  ' t <- get_time r ;;
  if converts (option_map FJson t) then
    Some (obj_define (spread r) k_time
            (FDate (new_Date h (option_map FJson t))))
  else None.

Fixpoint map_opt {A B} (f : A -> option B) (l : list A) : option (list B) :=
  match l with
  | [] => Some []
  | x :: r => ' y <- f x ;; ' ys <- map_opt f r ;; Some (y :: ys)
  end.

(** [JSON.parse(stored).map(...)]; [None] when it throws (SyntaxError, or
    TypeError because the parsed value has no [map] method, an element is
    null or the [time] of an element does not convert). *)
Definition decode (h : Host) (stored : jsstring) : option (list object) :=
  ' v <- JSON_parse stored ;;
  match v with
  | JArr l => map_opt (revive h) l
  | _ => None
  end.

(** ** The component state and its surroundings *)

Record State := {
  (** component state *)
  reminders : list object;
  form_name : jsstring;         (* [name] *)
  form_repeatCount : jsstring;  (* [repeatCount] *)
  form_time : Date;             (* [time] *)
  showTimePicker : bool;
  (** the AsyncStorage item "reminders" *)
  storage : option jsstring;
  (** calls received by the notification backend, oldest first *)
  backend : list BackendCall;
  (** [Alert.alert] dialogs (title, message) and [console.error] lines *)
  alerts : list (jsstring * jsstring);
  console : list jsstring
}.

(** What one operation observes of the world while it runs. *)
Record Run := {
  (** the value of the k-th [new Date()] the operation evaluates *)
  clock : nat -> Z;
  (** the value of [Math.random().toString()] *)
  random : jsstring;
  (** whether the AsyncStorage call resolves (rather than throws) *)
  storage_ok : bool
}.

Definition setReminders (l : list object) (s : State) : State :=
  {| reminders := l; form_name := form_name s;
     form_repeatCount := form_repeatCount s; form_time := form_time s;
     showTimePicker := showTimePicker s; storage := storage s;
     backend := backend s; alerts := alerts s; console := console s |}.

Definition setName (v : jsstring) (s : State) : State :=
  {| reminders := reminders s; form_name := v;
     form_repeatCount := form_repeatCount s; form_time := form_time s;
     showTimePicker := showTimePicker s; storage := storage s;
     backend := backend s; alerts := alerts s; console := console s |}.

Definition setRepeatCount (v : jsstring) (s : State) : State :=
  {| reminders := reminders s; form_name := form_name s;
     form_repeatCount := v; form_time := form_time s;
     showTimePicker := showTimePicker s; storage := storage s;
     backend := backend s; alerts := alerts s; console := console s |}.

Definition setTime (v : Date) (s : State) : State :=
  {| reminders := reminders s; form_name := form_name s;
     form_repeatCount := form_repeatCount s; form_time := v;
     showTimePicker := showTimePicker s; storage := storage s;
     backend := backend s; alerts := alerts s; console := console s |}.

Definition setShowTimePicker (v : bool) (s : State) : State :=
  {| reminders := reminders s; form_name := form_name s;
     form_repeatCount := form_repeatCount s; form_time := form_time s;
     showTimePicker := v; storage := storage s;
     backend := backend s; alerts := alerts s; console := console s |}.

Definition setItem (v : jsstring) (s : State) : State :=
  {| reminders := reminders s; form_name := form_name s;
     form_repeatCount := form_repeatCount s; form_time := form_time s;
     showTimePicker := showTimePicker s; storage := Some v;
     backend := backend s; alerts := alerts s; console := console s |}.

Definition call_backend (calls : list BackendCall) (s : State) : State :=
  {| reminders := reminders s; form_name := form_name s;
     form_repeatCount := form_repeatCount s; form_time := form_time s;
     showTimePicker := showTimePicker s; storage := storage s;
     backend := backend s ++ calls; alerts := alerts s;
     console := console s |}.

Definition Alert_alert (t m : jsstring) (s : State) : State :=
  {| reminders := reminders s; form_name := form_name s;
     form_repeatCount := form_repeatCount s; form_time := form_time s;
     showTimePicker := showTimePicker s; storage := storage s;
     backend := backend s; alerts := alerts s ++ [(t, m)];
     console := console s |}.

Definition console_error (m : jsstring) (s : State) : State :=
  {| reminders := reminders s; form_name := form_name s;
     form_repeatCount := form_repeatCount s; form_time := form_time s;
     showTimePicker := showTimePicker s; storage := storage s;
     backend := backend s; alerts := alerts s;
     console := console s ++ [m] |}.

(** The state when the component mounts, over whatever the device holds. *)
Definition mount (now : Z) (stored : option jsstring)
  (scheduled : list BackendCall) : State :=
  {| reminders := []; form_name := []; form_repeatCount := [];
     form_time := Some now; showTimePicker := false; storage := stored;
     backend := scheduled; alerts := []; console := [] |}.

(** A string is truthy when it is not empty. *)
Definition truthy (s : jsstring) : bool :=
  match s with [] => false | _ :: _ => true end.

(** ** loadReminders, saveReminders *)

Definition loadReminders (h : Host) (run : Run) (s : State) : State :=
  if storage_ok run then
    match storage s with
    | Some storedReminders =>
        if truthy storedReminders then
          match decode h storedReminders with
          | Some l => setReminders l s
          | None => console_error (str "Error loading reminders:") s
          end
        else s
    | None => s
    end
  else console_error (str "Error loading reminders:") s.

Definition saveReminders (run : Run) (updatedReminders : list object)
  (s : State) : State :=
  if storage_ok run then setItem (JSON_stringify updatedReminders) s
  else console_error (str "Error saving reminders:") s.

(** ** addReminder, deleteReminder *)

(** The number [parseInt] returned once NaN has been excluded. *)
Definition number_value (x : option Z) : Z :=
  match x with Some n => n | None => 0 end.

(** The guard of [addReminder]:
    [!name || !repeatCount || isNaN(parseInt(repeatCount))
     || parseInt(repeatCount) < 1]. *)
Definition input_rejected (s : State) : bool :=
  (negb (truthy (form_name s))
   || negb (truthy (form_repeatCount s))
   || isNaN (parseInt (form_repeatCount s))
   || num_ltb (parseInt (form_repeatCount s)) 1)%bool.

(** The object literal of [addReminder]: the form fields and a random id. *)
Definition new_reminder (run : Run) (s : State) : Reminder :=
  {| id := random run; name := form_name s; time := form_time s;
     repeatCount := number_value (parseInt (form_repeatCount s)) |}.

Definition addReminder (h : Host) (run : Run) (s : State) : State :=
  if input_rejected s
  then
    Alert_alert (str "Error")
      (str "Please enter a valid name and repeat count (1 or more).") s
  else
    let newReminder := obj (new_reminder run s) in
    let updatedReminders := reminders s ++ [newReminder] in
    let s := setReminders updatedReminders s in
    let s := saveReminders run updatedReminders s in
    let s := call_backend (scheduleNotification h (clock run 0) newReminder) s in
    let s := setName [] s in
    let s := setRepeatCount [] s in
    setTime (Some (clock run 1)) s.

(** [r.id !== id] for a string [id]. *)
Definition id_differs (r : object) (i : jsstring) : bool :=
  match lookup r k_id with
  | Some (FJson (JStr s)) => negb (jsstring_eqb s i)
  | _ => true
  end.

(** The loop that reschedules the remaining reminders; the k-th call of
    [scheduleNotification] reads the clock for the k-th time, and a call
    that throws ends the loop. *)
Fixpoint reschedule (h : Host) (run : Run) (k : nat) (l : list object)
  : list BackendCall :=
  match l with
  | [] => []
  | reminder :: l' =>
      scheduleNotification h (clock run k) reminder
      ++ (if resolves reminder then reschedule h run (S k) l' else [])
  end.

Definition deleteReminder (h : Host) (run : Run) (i : jsstring) (s : State)
  : State :=
  let updatedReminders := filter (fun r => id_differs r i) (reminders s) in
  let s := setReminders updatedReminders s in
  let s := saveReminders run updatedReminders s in
  let s := call_backend [cancelAllScheduledNotificationsAsync] s in
  call_backend (reschedule h run 0 updatedReminders) s.

Definition onTimeChange (selectedTime : option Date) (s : State) : State :=
  let s := setShowTimePicker false s in
  match selectedTime with
  | Some t => setTime t s
  | None => s
  end.

(** ** Notions used in the statements *)

(** The occurrence time [scheduleNotification] computes for index [i]. *)
Definition occurrence (h : Host) (now : Z) (r : Reminder) (i : nat) : Date :=
  fireDate (reminderTime h now (obj r)) (Z.of_nat i).

(** The request issued for a well-typed reminder. *)
Definition reminder_request (r : Reminder) : NotificationRequest :=
  {| content := {| title := str "Reminder";
                   body := Some (FJson (JStr (name r))) |};
     trigger := {| type := TIME_INTERVAL; seconds := 5400;
                   repeats := true |} |}.

(** Following the specification's words: today's date (in local time)
    combined with the time of day of [t]. *)
Definition todayAt (h : Host) (now t : Z) : Z :=
  UTC h (MakeDate (Day (LocalTime h now)) (TimeWithinDay (LocalTime h t))).

(** Following the specification's words: a base-10 integer, that is an
    optional minus sign and decimal digits, nothing else. *)
Definition base10_integer (s : jsstring) : option Z :=
  let '(sign, ds) :=
    match expect 45 s with Some r => (-1, r) | None => (1, s) end in
  match take_digits digit_val ds, drop_digits digit_val ds with
  | d :: r, [] => Some (sign * digits_value 10 (d :: r))
  | _, _ => None
  end.

(** Following the specification's words: [name] non-empty and the repeat
    count input a base-10 integer that is at least 1. *)
Definition spec_valid (nm rc : jsstring) : bool :=
  (truthy nm
   && match base10_integer rc with Some n => 1 <=? n | None => false end)%bool.

(** The typed view of an object of the list: [Some r] when it has the four
    properties of the [Reminder] interface with their types. *)
Definition as_Reminder (o : object) : option Reminder :=
  match lookup o k_id, lookup o k_name, lookup o k_time,
        lookup o k_repeatCount with
  | Some (FJson (JStr i)), Some (FJson (JStr n)), Some (FDate t),
    Some (FJson (JNum (Int c))) =>
      Some {| id := i; name := n; time := t; repeatCount := c |}
  | _, _, _, _ => None
  end.

(** A reminder of the data model: a valid time value and a repeat count
    that a double represents exactly. *)
Definition wf_reminder (r : Reminder) : Prop :=
  (exists t, time r = Some t /\ Z.abs t <= maxTime)
  /\ Z.abs (repeatCount r) <= 9007199254740991.

(** The ids of the live collection, as [r.id] reads them. *)
Definition ids (l : list object) : list (option field) :=
  map (fun o => lookup o k_id) l.

Definition id_value (i : jsstring) : option field := Some (FJson (JStr i)).

(** The collection [loadReminders] would read from the store. *)
Definition persisted (h : Host) (s : State) : list object :=
  match storage s with
  | Some text =>
      if truthy text then
        match decode h text with Some l => l | None => [] end
      else []
  | None => []
  end.

(** The requests among a sequence of backend calls. *)
Definition requests_of (calls : list BackendCall) : list NotificationRequest :=
  flat_map (fun c =>
              match c with
              | scheduleNotificationAsync r => [r]
              | cancelAllScheduledNotificationsAsync => []
              end) calls.

Definition is_schedule (c : BackendCall) : bool :=
  match c with
  | scheduleNotificationAsync _ => true
  | cancelAllScheduledNotificationsAsync => false
  end.

(** States reachable from an empty collection by the user's actions. *)
Inductive action :=
| Add (run : Run)
| Delete (run : Run) (i : jsstring)
| TypeName (v : jsstring)
| TypeRepeatCount (v : jsstring)
| PickTime (selectedTime : option Date).

Definition perform (h : Host) (a : action) (s : State) : State :=
  match a with
  | Add run => addReminder h run s
  | Delete run i => deleteReminder h run i s
  | TypeName v => setName v s
  | TypeRepeatCount v => setRepeatCount v s
  | PickTime t => onTimeChange t s
  end.

Definition perform_all (h : Host) (l : list action) (s : State) : State :=
  fold_left (fun s a => perform h a s) l s.

(** An [Add] whose random id differs from every live id. *)
Definition fresh_action (a : action) (s : State) : Prop :=
  match a with
  | Add run => ~ In (id_value (random run)) (ids (reminders s))
  | _ => True
  end.

Fixpoint all_fresh (h : Host) (l : list action) (s : State) : Prop :=
  match l with
  | [] => True
  | a :: l' => fresh_action a s /\ all_fresh h l' (perform h a s)
  end.

(** Concrete data for the examples: 15 January 2024, 14:00 UTC, and so on. *)
Definition t_jan15_1400 : Z := 1705327200000.
Definition t_jan15_1000 : Z := 1705312800000.
Definition t_jan15_1530 : Z := 1705332600000.
Definition t_feb20_1000 : Z := 1708423200000.

Definition pills : Reminder :=
  {| id := str "0.42"; name := str "Pills"; time := Some t_jan15_1400;
     repeatCount := 3 |}.

Definition run0 : Run :=
  {| clock := fun _ => t_jan15_1000; random := str "0.42";
     storage_ok := true |}.

Definition water : Reminder :=
  {| id := str "0.77"; name := str "Water"; time := Some t_jan15_1530;
     repeatCount := 2 |}.

(** A mounted component whose list holds two reminders. *)
Definition two_reminders : State :=
  setReminders (map obj [pills; water]) (mount t_jan15_1000 None []).

(** The form filled in, on a freshly mounted component. *)
Definition typing (nm rc : jsstring) : State :=
  setRepeatCount rc (setName nm (mount t_jan15_1000 None [])).

Definition run1 : Run :=
  {| clock := fun _ => t_jan15_1000; random := str "0.77";
     storage_ok := true |}.

Definition two_adds (r1 r2 : Run) : list action :=
  [TypeName (str "Pills"); TypeRepeatCount (str "1"); Add r1;
   TypeName (str "Water"); TypeRepeatCount (str "2"); Add r2].

(** Nothing to read: the read resolves and finds no item, or an empty
    string. *)
Definition nothing_stored (run : Run) (stored : option jsstring) : Prop :=
  storage_ok run = true /\ (stored = None \/ stored = Some []).

(** What makes the [try] block of [loadReminders] throw: the read itself,
    [JSON.parse] (SyntaxError), the call of [map] on a value that is not an
    array, the access [r.time] on a null element, or [new Date(r.time)] on
    a [time] that does not convert. *)
Inductive read_fails (run : Run) : option jsstring -> Prop :=
| read_throws stored : storage_ok run = false -> read_fails run stored
| not_json text :
    text <> [] -> JSON_parse text = None -> read_fails run (Some text)
| not_an_array text v :
    JSON_parse text = Some v -> (forall l, v <> JArr l) ->
    read_fails run (Some text)
| null_element text l :
    JSON_parse text = Some (JArr l) -> In JNull l ->
    read_fails run (Some text)
| time_throws text l props t :
    JSON_parse text = Some (JArr l) -> In (JObj props) l ->
    lookup props k_time = Some t -> ToString t = None ->
    read_fails run (Some text).

(** A stored record that loads: an object whose [time], if it has one,
    converts. *)
Definition loadable (j : json) : Prop :=
  exists props,
    j = JObj props
    /\ converts (option_map FJson (lookup props k_time)) = true.

(** The object [o] of the list holds the stored record [j]: the
    properties of [j] with their values, except that [time] is a [Date],
    an Invalid Date when [j] has no [time] and [Date.parse] of it when it
    is a string. *)
Definition loaded_from (h : Host) (j : json) (o : object) : Prop :=
  exists props,
    j = JObj props
    /\ (exists d,
          lookup o k_time = Some (FDate d)
          /\ (lookup props k_time = None -> d = None)
          /\ (forall text, lookup props k_time = Some (JStr text) ->
                           d = Date_parse h text))
    /\ forall k, jsstring_eqb k k_time = false ->
                 lookup o k = option_map FJson (lookup props k).

(** A parse that succeeds with some fuel consumes input and succeeds
    alike with any fuel that is at least the number of code units it
    consumed. *)
Definition fuel_spec {A} (parse : nat -> jsstring -> option (A * jsstring))
  (f : nat) : Prop :=
  forall s v r,
    parse f s = Some (v, r) ->
    (length r < length s)%nat
    /\ forall f', (length s - length r <= f')%nat -> parse f' s = Some (v, r).

(** A decimal digit value. *)
Definition is_digit (d : Z) : Prop := 0 <= d <= 9.

(** What may follow a number in a JSON text. *)
Definition number_end (rest : jsstring) : Prop :=
  match rest with
  | [] => True
  | c :: _ => digit_val c = None /\ c <> 46%N /\ c <> 101%N /\ c <> 69%N
  end.

(** The JSON value of a reminder with a valid time. *)
Definition reminder_json (i n : jsstring) (t c : Z) : json :=
  JObj [(k_id, JStr i); (k_name, JStr n); (k_time, JStr (toISOString t));
        (k_repeatCount, JNum (Int c))].

Definition is_reminder_json (j : json) : Prop :=
  exists i n t c, j = reminder_json i n t c /\ Z.abs c < 10 ^ 21.

(** ** configureNotifications and the mount effect *)

Inductive PermissionStatus := granted | denied | undetermined.

Inductive PlatformOS := ios | android | windows | macos | web.

Inductive AndroidImportance :=
| UNKNOWN | UNSPECIFIED | NONE | MIN | LOW | DEFAULT | HIGH | MAX.

Record NotificationChannel := {
  channel_name : jsstring;
  importance : AndroidImportance;
  vibrationPattern : list Z;
  lightColor : jsstring
}.

(** The calls [configureNotifications] makes on expo-notifications. *)
Inductive SetupCall :=
| getPermissionsAsync
| requestPermissionsAsync
| setNotificationChannelAsync (channelId : jsstring) (c : NotificationChannel).

(** What [configureNotifications] observes: the status
    [getPermissionsAsync] reports, the status [requestPermissionsAsync]
    would resolve to, and [Platform.OS]. *)
Record Device := {
  existingStatus : PermissionStatus;
  requestedStatus : PermissionStatus;
  OS : PlatformOS
}.

(** [status !== "granted"] *)
Definition not_granted (st : PermissionStatus) : bool :=
  match st with granted => false | _ => true end.

Definition is_android (os : PlatformOS) : bool :=
  match os with android => true | _ => false end.

Definition reminders_channel : NotificationChannel :=
  {| channel_name := str "Reminders";
     importance := HIGH;
     vibrationPattern := [0; 250; 250; 250];
     lightColor := str "#FF231F7C" |}.

(** The state after [configureNotifications] and the calls it made. *)
Definition configureNotifications (d : Device) (s : State)
  : State * list SetupCall :=
  let '(finalStatus, calls) :=
    if not_granted (existingStatus d)
    then (requestedStatus d, [getPermissionsAsync; requestPermissionsAsync])
    else (existingStatus d, [getPermissionsAsync]) in
  if not_granted finalStatus then
    (Alert_alert (str "Permission required")
       (str "Please enable notifications to use this app") s, calls)
  else if is_android (OS d) then
    (s, calls ++ [setNotificationChannelAsync (str "reminders")
                    reminders_channel])
  else (s, calls).

(** The effect run when the component mounts:
    [loadReminders(); configureNotifications();]. *)
Definition mount_effect (h : Host) (run : Run) (d : Device) (s : State)
  : State * list SetupCall :=
  configureNotifications d (loadReminders h run s).

(** ** Further notions used in the statements *)

Definition valid_date (d : Date) : Prop :=
  exists t, d = Some t /\ Z.abs t <= maxTime.

(** An action whose storage write resolves and whose inputs are in the
    range of the data model: clock readings and picked times are valid
    time values, an accepted repeat count is a safe integer. *)
Definition sane_action (a : action) (s : State) : Prop :=
  match a with
  | Add run =>
      storage_ok run = true
      /\ Z.abs (clock run 1) <= maxTime
      /\ (forall n, parseInt (form_repeatCount s) = Some n ->
                    n <= 9007199254740991)
  | Delete run _ => storage_ok run = true
  | PickTime (Some d) => valid_date d
  | _ => True
  end.

Fixpoint all_sane (h : Host) (l : list action) (s : State) : Prop :=
  match l with
  | [] => True
  | a :: l' => sane_action a s /\ all_sane h l' (perform h a s)
  end.

(** An object whose [time] property is a [Date]. *)
Definition has_Date_time (o : object) : Prop :=
  exists d, lookup o k_time = Some (FDate d).

(** A reminder as [addReminder] accepts them. *)
Definition accepted_reminder (o : object) : Prop :=
  exists r, o = obj r /\ name r <> [] /\ 1 <= repeatCount r.

(** The stored reminders whose id is [i]. *)
Definition with_id (i : jsstring) (X : list Reminder) : list Reminder :=
  filter (fun r => jsstring_eqb (id r) i) X.

(** The list holds the reminders [X] of the data model, the store holds
    their text (or nothing yet, while the list is empty), and the time of
    the form is a valid date. *)
Definition mirrors (s : State) (X : list Reminder) : Prop :=
  reminders s = map obj X
  /\ Forall wf_reminder X
  /\ ((storage s = None /\ X = [])
      \/ storage s = Some (JSON_stringify (map obj X)))
  /\ valid_date (form_time s).

(** The status [configureNotifications] ends with. *)
Definition finalStatus (d : Device) : PermissionStatus :=
  if not_granted (existingStatus d) then requestedStatus d
  else existingStatus d.

(** A run whose storage call throws. *)
Definition offline : Run :=
  {| clock := fun _ => t_jan15_1000; random := str "0.42";
     storage_ok := false |}.

Definition phone : Device :=
  {| existingStatus := undetermined; requestedStatus := granted;
     OS := android |}.

(** What [loadReminders] makes of a stored record whose only property is
    a [repeatCount] that is an object with a property [toString]. *)
Definition unconvertible : object :=
  [(k_repeatCount, FJson (JObj [(str "toString", JNum (Int 1))]));
   (k_time, FDate None)].

(** The stored text [[{"n":7}]], a record that is no reminder. *)
Definition stored_record : jsstring :=
  str "[{" ++ quote (str "n") ++ str ":7}]".





(** ** Today's occurrences, as the specification words them *)

(** Following the specification's words: the occurrence times
    [todayAt(time) + i hours], for [i] below the repeat count, that are
    strictly after [now]. *)
Definition occurrences_ahead (h : Host) (now : Z) (r : Reminder) : list Z :=
  match time r with
  | Some t =>
      filter (fun o => now <? o)
        (map (fun i => todayAt h now t + Z.of_nat i * 3600000)
             (seq 0 (Z.to_nat (repeatCount r))))
  | None => []
  end.

(** One request of the reminder for each of the given occurrence times. *)
Definition requests_at (r : Reminder) (times : list Z) : list BackendCall :=
  map (fun _ => scheduleNotificationAsync (reminder_request r)) times.

(** The stored date of the reminder lies in the month of [now], in local
    time, and today's occurrences are time values. *)
Definition of_this_month (h : Host) (now : Z) (r : Reminder) : Prop :=
  exists t,
    time r = Some t
    /\ YearFromTime (LocalTime h t) = YearFromTime (LocalTime h now)
    /\ MonthFromTime (LocalTime h t) = MonthFromTime (LocalTime h now)
    /\ - maxTime <= todayAt h now t
    /\ todayAt h now t + repeatCount r * 3600000 <= maxTime.





(** The largest integer up to which every integer is a double. *)
Definition MAX_SAFE_INTEGER : Z := 9007199254740991.

(** * Properties *)

Example parseInt_3 : parseInt (str "3") = Some 3.
Proof. reflexivity. Qed.

Example iso_epoch : toISOString 0 = str "1970-01-01T00:00:00.000Z".
Proof. reflexivity. Qed.

Example iso_2024 : toISOString 1705327200000 = str "2024-01-15T14:00:00.000Z".
Proof. reflexivity. Qed.

Example iso_back : iso_parse (str "2024-01-15T14:00:00.000Z") = Some 1705327200000.
Proof. reflexivity. Qed.

Example iso_neg : toISOString (-62167219200001) = str "-000001-12-31T23:59:59.999Z".
Proof. reflexivity. Qed.

Example iso_neg_back : iso_parse (str "-000001-12-31T23:59:59.999Z") = Some (-62167219200001).
Proof. reflexivity. Qed.

Example print_ex :
  print (JArr [JNum (Int 12); JNull; JBool true; JNum (Dec (-15) 1)])
  = str "[12,null,true,-1.5]".
Proof. reflexivity. Qed.

Example parse_ex :
  JSON_parse (str " [12, null,true , -1.50e0, {}, 1e2] ")
  = Some (JArr [JNum (Int 12); JNull; JBool true; JNum (Dec (-15) 1); JObj []; JNum (Int 100)]).
Proof. reflexivity. Qed.

Example parse_print_ex :
  let v := JArr [JObj [(str "id", JStr (str "0.5")); (str "n", JNum (Int 3))]] in
  JSON_parse (print v) = Some v.
Proof. reflexivity. Qed.

Example spec_example_three : length (scheduleNotification utc_host t_jan15_1000 (obj pills)) = 3%nat.
Proof. reflexivity. Qed.

Example spec_example_one : length (scheduleNotification utc_host t_jan15_1530 (obj pills)) = 1%nat.
Proof. reflexivity. Qed.

(** ** Calendar arithmetic *)

Ltac divmod := Z.div_mod_to_equations.

Lemma yoe_bounds doe :
  0 <= doe < 146097 ->
  let yoe := (doe - doe / 1460 + doe / 36524 - doe / 146096) / 365 in
  let doy := doe - (365 * yoe + yoe / 4 - yoe / 100) in
  0 <= yoe <= 399 /\ 0 <= doy <= 365 /\
  (doy = 365 -> (yoe + 1) mod 4 = 0 /\ ((yoe + 1) mod 100 <> 0 \/ yoe = 399)).
Proof.
  intros H yoe doy. subst doy yoe.
  divmod; lia.
Qed.

Lemma InLeapYear_true y :
  InLeapYear y = true <-> y mod 4 = 0 /\ (y mod 100 <> 0 \/ y mod 400 = 0).
Proof.
  unfold InLeapYear.
  destruct (Z.eqb_spec (y mod 4) 0), (Z.eqb_spec (y mod 100) 0),
    (Z.eqb_spec (y mod 400) 0); simpl; intuition (try discriminate; try lia).
Qed.

Lemma InLeapYear_period y k : InLeapYear (y + k * 400) = InLeapYear y.
Proof.
  unfold InLeapYear.
  replace ((y + k * 400) mod 4) with (y mod 4) by (divmod; lia).
  replace ((y + k * 400) mod 100) with (y mod 100) by (divmod; lia).
  replace ((y + k * 400) mod 400) with (y mod 400) by (divmod; lia).
  reflexivity.
Qed.

Lemma DayFromYear_period y k :
  DayFromYear (y + k * 400) = DayFromYear y + 146097 * k.
Proof. unfold DayFromYear. divmod; lia. Qed.

(** 1 March and 1 January counted from the start of the 400-year era. *)
Lemma march1 y :
  DayFromYear y + 59 + (if InLeapYear y then 1 else 0)
  = 365 * y + y / 4 - y / 100 + y / 400 - 719468.
Proof.
  destruct (InLeapYear y) eqn:L.
  - apply InLeapYear_true in L. unfold DayFromYear. divmod; lia.
  - assert (~ (y mod 4 = 0 /\ (y mod 100 <> 0 \/ y mod 400 = 0)))
      by (rewrite <- InLeapYear_true; congruence).
    unfold DayFromYear. divmod; lia.
Qed.

Lemma jan1 y :
  DayFromYear (y + 1) = 365 * y + y / 4 - y / 100 + y / 400 + 306 - 719468.
Proof. unfold DayFromYear. divmod; lia. Qed.

Lemma MakeDay_small y m d :
  0 <= m <= 11 ->
  MakeDay y m d = DayFromYear y + days_before_month (InLeapYear y) m + d - 1.
Proof.
  intros H. unfold MakeDay.
  rewrite Z.div_small, Z.mod_small by lia. now rewrite Z.add_0_r.
Qed.

(** [civil_from_days] inverts [MakeDay] and yields a valid calendar date. *)
Lemma civil_from_days_spec day :
  let '(y, m, d) := civil_from_days day in
  MakeDay y m d = day /\ 0 <= m <= 11 /\ 1 <= d <= DaysInMonth y m.
Proof.
  unfold civil_from_days.
  set (z := day + 719468).
  set (era := z / 146097).
  set (doe := z mod 146097).
  assert (Hz : z = 146097 * era + doe /\ 0 <= doe < 146097)
    by (subst era doe; divmod; lia).
  destruct (yoe_bounds doe (proj2 Hz)) as (Hy & Hd & Hl).
  set (yoe := (doe - doe / 1460 + doe / 36524 - doe / 146096) / 365) in *.
  set (doy := doe - (365 * yoe + yoe / 4 - yoe / 100)) in *.
  set (mp := (5 * doy + 2) / 153).
  assert (Hmp : 0 <= mp <= 11) by (subst mp; divmod; lia).
  assert (Hm : 153 * mp <= 5 * doy + 2 < 153 * mp + 153)
    by (subst mp; divmod; lia).
  assert (Hday : day = 146097 * era + doe - 719468) by (subst z; lia).
  assert (Hdoy : doe = doy + (365 * yoe + yoe / 4 - yoe / 100))
    by (subst doy; lia).
  assert (H400 : yoe / 400 = 0) by (apply Z.div_small; lia).
  pose proof (march1 yoe) as M1. pose proof (jan1 yoe) as J1.
  rewrite H400 in M1, J1.
  assert (Hfeb : doy = 365 -> InLeapYear (yoe + 1) = true).
  { intros E. apply InLeapYear_true. destruct (Hl E) as [A [B|B]]; split; auto.
    right. subst yoe. rewrite B. reflexivity. }
  clearbody z era doe yoe doy mp. clear Hz Hl H400. subst doe.
  generalize dependent (yoe / 4). generalize dependent (yoe / 100).
  intros q100 q4 M1 J1 Hday.
  assert (Hc : mp = 0 \/ mp = 1 \/ mp = 2 \/ mp = 3 \/ mp = 4 \/ mp = 5
               \/ mp = 6 \/ mp = 7 \/ mp = 8 \/ mp = 9 \/ mp = 10 \/ mp = 11)
    by lia.
  destruct Hc as [E|[E|[E|[E|[E|[E|[E|[E|[E|[E|[E|E]]]]]]]]]]];
    subst mp; cbv zeta;
    match goal with
    | |- context [if ?c then ?a else ?b] =>
        let v := eval vm_compute in (if c then a else b) in
        change (if c then a else b) with v
    end;
    match goal with
    | |- context [if ?c then ?a else ?b] =>
        let v := eval vm_compute in (if c then a else b) in
        change (if c then a else b) with v
    end;
    match goal with
    | |- context [(153 * ?c + 2) / 5] =>
        let v := eval vm_compute in ((153 * c + 2) / 5) in
        change ((153 * c + 2) / 5) with v
    end;
    rewrite MakeDay_small by lia;
    first [ rewrite Z.add_0_r
          | replace (yoe + era * 400 + 1) with (yoe + 1 + era * 400) by lia ];
    rewrite DayFromYear_period, InLeapYear_period;
    cbn [DaysInMonth];
    try rewrite InLeapYear_period;
    match goal with
    | |- context [days_before_month (InLeapYear ?y) _] =>
        destruct (InLeapYear y) eqn:L
    end;
    match goal with
    | |- context [days_before_month ?b ?m] =>
        let v := eval vm_compute in (days_before_month b m) in
        change (days_before_month b m) with v
    end;
    try lia;
    assert (doy <> 365) by (intro X; rewrite (Hfeb X) in L; discriminate); lia.
Qed.

Lemma MakeDay_civil t :
  MakeDay (YearFromTime t) (MonthFromTime t) (DateFromTime t) = Day t.
Proof.
  unfold YearFromTime, MonthFromTime, DateFromTime.
  pose proof (civil_from_days_spec (Day t)) as H.
  destruct (civil_from_days (Day t)) as [[y m] d]. simpl. tauto.
Qed.


(** ** scheduleNotification *)

Lemma flat_map_if {A B} (p : A -> bool) (c : B) (l : list A) :
  flat_map (fun i => if p i then [c] else []) l
  = repeat c (length (filter p l)).
Proof.
  induction l as [|a l IH]; simpl; [reflexivity|].
  destruct (p a); simpl; now rewrite IH.
Qed.

Lemma request_for_obj r : request_for (obj r) = reminder_request r.
Proof. reflexivity. Qed.

Lemma scheduleNotification_obj h now r :
  scheduleNotification h now (obj r)
  = repeat (scheduleNotificationAsync (reminder_request r))
      (length (filter (fun i => date_gtb (occurrence h now r i) now)
                      (seq 0 (Z.to_nat (repeatCount r))))).
Proof.
  unfold scheduleNotification. rewrite request_for_obj.
  apply (flat_map_if (fun i => date_gtb (occurrence h now r i) now)).
Qed.

Lemma scheduleNotification_is_schedule h now o :
  forallb is_schedule (scheduleNotification h now o) = true.
Proof.
  unfold scheduleNotification. destruct (resolves o); [|reflexivity].
  rewrite flat_map_if. induction (length _); simpl; auto.
Qed.

(** Within the range of time values an occurrence is the base time plus
    [i] hours. *)
Lemma occurrence_in_range h now r base i :
  reminderTime h now (obj r) = Some base ->
  Z.abs (base + Z.of_nat i * 3600000) <= maxTime ->
  occurrence h now r i = Some (base + Z.of_nat i * 3600000).
Proof.
  intros Hb Hr. unfold occurrence. rewrite Hb. unfold fireDate, TimeClip.
  replace (base + Z.of_nat i * 3600 * 1000) with (base + Z.of_nat i * 3600000)
    by lia.
  destruct (Z.leb_spec (Z.abs (base + Z.of_nat i * 3600000)) maxTime);
    [reflexivity | lia].
Qed.

(** C1: at 10:00 the reminder "Pills" (14:00, three times) has three future
    occurrences, 14:00, 15:00 and 16:00; the three requests issued are
    identical and carry a repeating 5400-second interval trigger, not a
    one-shot trigger at the occurrence time. *)
Theorem C1_trigger_is_repeating_interval :
  scheduleNotification utc_host t_jan15_1000 (obj pills)
  = repeat (scheduleNotificationAsync (reminder_request pills)) 3
  /\ trigger (reminder_request pills)
     = {| type := TIME_INTERVAL; seconds := 5400; repeats := true |}
  /\ map (occurrence utc_host t_jan15_1000 pills) [0%nat; 1%nat; 2%nat]
     = [Some t_jan15_1400; Some (t_jan15_1400 + 3600000);
        Some (t_jan15_1400 + 7200000)].
Proof. repeat split; reflexivity. Qed.

(** Every request of [scheduleNotification] carries the same trigger. *)
Lemma scheduleNotification_trigger h now o :
  Forall (fun c => c = scheduleNotificationAsync (request_for o)
                   /\ trigger (request_for o)
                      = {| type := TIME_INTERVAL; seconds := 5400;
                           repeats := true |})
         (scheduleNotification h now o).
Proof.
  unfold scheduleNotification. destruct (resolves o); [|constructor].
  rewrite flat_map_if.
  apply Forall_forall. intros c Hc. apply repeat_spec in Hc. now subst.
Qed.

(** ** The base time *)

(** When the stored date lies in the current month of the current year (in
    local time), [setDate] does yield today's date at the stored time of
    day. *)
Lemma reminderTime_same_month h now r t :
  time r = Some t ->
  YearFromTime (LocalTime h t) = YearFromTime (LocalTime h now) ->
  MonthFromTime (LocalTime h t) = MonthFromTime (LocalTime h now) ->
  reminderTime h now (obj r) = TimeClip (todayAt h now t).
Proof.
  intros Ht Hy Hm. unfold reminderTime, obj. cbn [lookup k_time k_id k_name jsstring_eqb char_eqb N.eqb Pos.eqb andb new_Date].
  rewrite Ht. unfold setDate, getDate, todayAt.
  now rewrite Hy, Hm, MakeDay_civil.
Qed.

(** ** Today's occurrences *)

Lemma map_filter_map_const {A B C} (c : C) (p : B -> bool) (f : A -> B)
  (l : list A) :
  map (fun _ => c) (filter p (map f l))
  = repeat c (length (filter (fun x => p (f x)) l)).
Proof.
  induction l as [|x l IH]; [reflexivity|]. cbn [map filter].
  destruct (p (f x)); cbn [map length repeat]; now rewrite IH.
Qed.

(** For a reminder stored in the current month, the requests are one for
    each of today's occurrences still ahead, as the specification counts
    them. *)
Lemma scheduleNotification_today h now r :
  of_this_month h now r ->
  scheduleNotification h now (obj r)
  = requests_at r (occurrences_ahead h now r).
Proof.
  intros (t & Ht & Hy & Hm & Hlo & Hhi).
  rewrite scheduleNotification_obj. unfold requests_at, occurrences_ahead.
  rewrite Ht, map_filter_map_const. f_equal. f_equal.
  apply filter_ext_in. intros i Hi. apply in_seq in Hi.
  assert (Hb : reminderTime h now (obj r) = Some (todayAt h now t)).
  { rewrite (reminderTime_same_month h now r t Ht Hy Hm). unfold TimeClip.
    destruct (Z.leb_spec (Z.abs (todayAt h now t)) maxTime);
      [reflexivity | unfold maxTime in *; lia]. }
  rewrite (occurrence_in_range h now r _ i Hb) by (unfold maxTime in *; lia).
  reflexivity.
Qed.

(** The spec's example: at 10:00 three requests, at 15:30 one. *)
Example occurrences_ahead_examples :
  occurrences_ahead utc_host t_jan15_1000 pills
  = [t_jan15_1400; t_jan15_1400 + 3600000; t_jan15_1400 + 7200000]
  /\ occurrences_ahead utc_host t_jan15_1530 pills = [t_jan15_1400 + 7200000].
Proof. split; reflexivity. Qed.

(** C2: the reminder "Pills" stored on 15 January for 14:00, three times,
    scheduled on 20 February at 10:00.  Today's occurrences 14:00, 15:00
    and 16:00 are all ahead, so the count of the claim is 3;
    [scheduleNotification] issues no request, because it counts the
    occurrences of 20 January.  On 15 January, at 10:00 and at 15:30, it
    issues the 3 and 1 requests of the claim, each with the title
    "Reminder" and the name as body. *)
Theorem C2_count_across_months :
  occurrences_ahead utc_host t_feb20_1000 pills
  = [1708437600000; 1708441200000; 1708444800000]
  /\ map toISOString (occurrences_ahead utc_host t_feb20_1000 pills)
     = [str "2024-02-20T14:00:00.000Z"; str "2024-02-20T15:00:00.000Z";
        str "2024-02-20T16:00:00.000Z"]
  /\ toISOString t_feb20_1000 = str "2024-02-20T10:00:00.000Z"
  /\ scheduleNotification utc_host t_feb20_1000 (obj pills) = []
  /\ scheduleNotification utc_host t_jan15_1000 (obj pills)
     = requests_at pills (occurrences_ahead utc_host t_jan15_1000 pills)
  /\ length (scheduleNotification utc_host t_jan15_1000 (obj pills)) = 3%nat
  /\ scheduleNotification utc_host t_jan15_1530 (obj pills)
     = requests_at pills (occurrences_ahead utc_host t_jan15_1530 pills)
  /\ length (scheduleNotification utc_host t_jan15_1530 (obj pills)) = 1%nat
  /\ content (reminder_request pills)
     = {| title := str "Reminder";
          body := Some (FJson (JStr (str "Pills"))) |}.
Proof. repeat split; reflexivity. Qed.

(** C3: a reminder stored on 15 January for 14:00, scheduled on
    20 February at 10:00: the base time is 20 January 14:00, not today
    (20 February) 14:00, and nothing is scheduled although 14:00, 15:00 and
    16:00 of today are still ahead. *)
Theorem C3_setDate_keeps_month :
  reminderTime utc_host t_feb20_1000 (obj pills) = Some 1705759200000
  /\ toISOString 1705759200000 = str "2024-01-20T14:00:00.000Z"
  /\ todayAt utc_host t_feb20_1000 t_jan15_1400 = 1708437600000
  /\ toISOString 1708437600000 = str "2024-02-20T14:00:00.000Z"
  /\ t_feb20_1000 < 1708437600000
  /\ scheduleNotification utc_host t_feb20_1000 (obj pills) = [].
Proof. repeat split; reflexivity. Qed.


(** ** addReminder: validation *)

Lemma truthy_true s : truthy s = true <-> s <> [].
Proof. destruct s; simpl; split; congruence. Qed.

Lemma input_rejected_false s :
  input_rejected s = false
  <-> form_name s <> []
      /\ exists n, parseInt (form_repeatCount s) = Some n /\ 1 <= n.
Proof.
  unfold input_rejected. split.
  - intros H.
    apply orb_false_iff in H. destruct H as [H H4].
    apply orb_false_iff in H. destruct H as [H H3].
    apply orb_false_iff in H. destruct H as [H1 H2].
    apply negb_false_iff, truthy_true in H1. split; [exact H1|].
    destruct (parseInt (form_repeatCount s)) as [n|]; [|discriminate].
    exists n. split; [reflexivity|]. simpl in H4.
    apply Z.ltb_ge in H4. exact H4.
  - intros [Hn (n & Hp & Hge)].
    apply truthy_true in Hn. rewrite Hn, Hp. simpl.
    assert (Hr : truthy (form_repeatCount s) = true).
    { destruct (form_repeatCount s); [discriminate Hp | reflexivity]. }
    rewrite Hr. simpl. apply Z.ltb_ge. exact Hge.
Qed.




(** The inputs the specification lists are rejected. *)
Example rejected_inputs :
  map (fun p => input_rejected (typing (fst p) (snd p)))
    [(str "Pills", str "0"); (str "Pills", str "-2"); (str "Pills", str "abc");
     (str "Pills", str ""); (str "", str "3")]
  = [true; true; true; true; true].
Proof. reflexivity. Qed.

(** On a plain decimal numeral [parseInt] is its value, so there the
    guard is the one the specification words. *)
Ltac cmp_cases :=
  repeat match goal with
    | |- context [N.eqb ?a ?b] => destruct (N.eqb_spec a b); try lia
    | |- context [N.leb ?a ?b] => destruct (N.leb_spec a b); try lia
    | |- context [N.ltb ?a ?b] => destruct (N.ltb_spec a b); try lia
    end.

Lemma digit_val_range c d :
  digit_val c = Some d -> (48 <= c <= 57)%N /\ d = Z.of_N c - 48.
Proof.
  unfold digit_val, in_range.
  destruct (N.leb_spec 48 c), (N.leb_spec c 57); simpl; intros E;
    inversion E; lia.
Qed.

Lemma expect_other c x s : c <> x -> expect x (c :: s) = None.
Proof.
  intros H. unfold expect, char_eqb.
  destruct (N.eqb_spec c x); [contradiction | reflexivity].
Qed.

Lemma expect_digit c d x s :
  digit_val c = Some d -> (x < 48 \/ 57 < x)%N -> expect x (c :: s) = None.
Proof. intros H Hx. apply digit_val_range in H. apply expect_other. lia. Qed.

Lemma trim_start_digit c d s :
  digit_val c = Some d -> trim_start (c :: s) = c :: s.
Proof.
  intros H. apply digit_val_range in H. simpl.
  replace (is_white c) with false; [reflexivity|].
  unfold is_white, in_range. cmp_cases; reflexivity.
Qed.

Lemma no_hex_prefix ds :
  drop_digits digit_val ds = [] ->
  match expect 48 ds with
  | Some r =>
      match expect 120 r, expect 88 r with
      | Some r', _ => (hex_val, 16, r')
      | None, Some r' => (hex_val, 16, r')
      | None, None => (digit_val, 10, ds)
      end
  | None => (digit_val, 10, ds)
  end = (digit_val, 10, ds).
Proof.
  intros H. destruct (expect 48 ds) as [r|] eqn:E; [|reflexivity].
  destruct ds as [|c ds]; [discriminate|]. unfold expect in E.
  destruct (char_eqb c 48%N); [|discriminate]. inversion E; subst r.
  simpl in H. destruct (digit_val c); [|discriminate].
  destruct ds as [|c2 ds]; [reflexivity|].
  simpl in H. destruct (digit_val c2) eqn:D2; [|discriminate].
  rewrite (expect_digit c2 _ 120 ds D2) by (right; reflexivity).
  rewrite (expect_digit c2 _ 88 ds D2) by (right; reflexivity).
  reflexivity.
Qed.

Lemma parseInt_unsigned ds d r sign0 :
  take_digits digit_val ds = d :: r -> drop_digits digit_val ds = [] ->
  (let '(val, radix, s) :=
     match expect 48 ds with
     | Some r =>
         match expect 120 r, expect 88 r with
         | Some r', _ => (hex_val, 16, r')
         | None, Some r' => (hex_val, 16, r')
         | None, None => (digit_val, 10, ds)
         end
     | None => (digit_val, 10, ds)
     end in
   match take_digits val s with
   | [] => None
   | ds' => Some (sign0 * digits_value radix ds')
   end) = Some (sign0 * digits_value 10 (d :: r)).
Proof.
  intros Ht Hd. rewrite (no_hex_prefix ds Hd). now rewrite Ht.
Qed.

Lemma parseInt_decimal s n : base10_integer s = Some n -> parseInt s = Some n.
Proof.
  unfold base10_integer, parseInt.
  destruct s as [|c s]; [discriminate|].
  destruct (expect 45 (c :: s)) as [r0|] eqn:E45.
  - unfold expect in E45. destruct (char_eqb c 45%N) eqn:Ec; [|discriminate].
    apply N.eqb_eq in Ec. subst c. inversion E45; subst r0. clear E45.
    destruct (take_digits digit_val s) as [|d r] eqn:Ht; [discriminate|].
    destruct (drop_digits digit_val s) eqn:Hd; [|discriminate].
    intros E; inversion E; subst n.
    change (trim_start (45%N :: s)) with (45%N :: s).
    change (expect 45 (45%N :: s)) with (Some s).
    cbv iota beta.
    exact (parseInt_unsigned s d r (-1) Ht Hd).
  - destruct (take_digits digit_val (c :: s)) as [|d r] eqn:Ht; [discriminate|].
    destruct (drop_digits digit_val (c :: s)) eqn:Hd; [|discriminate].
    intros E; inversion E; subst n.
    assert (Hc : exists dc, digit_val c = Some dc).
    { simpl in Ht. destruct (digit_val c); [eauto | discriminate]. }
    destruct Hc as [dc Hc].
    rewrite (trim_start_digit c dc s Hc), E45.
    rewrite (expect_digit c dc 43 s Hc) by (left; reflexivity).
    cbv iota beta.
    exact (parseInt_unsigned (c :: s) d r 1 Ht Hd).
Qed.

Lemma spec_valid_accepted s :
  spec_valid (form_name s) (form_repeatCount s) = true ->
  input_rejected s = false.
Proof.
  unfold spec_valid. intros H. apply andb_true_iff in H. destruct H as [Hn Hv].
  apply input_rejected_false. split; [now apply truthy_true|].
  destruct (base10_integer (form_repeatCount s)) as [n|] eqn:E; [|discriminate].
  exists n. split; [now apply parseInt_decimal | now apply Z.leb_le].
Qed.

(** ** Property keys *)

Lemma jsstring_eqb_eq a b : jsstring_eqb a b = true <-> a = b.
Proof.
  revert b. induction a as [|x a IH]; destruct b as [|y b]; simpl;
    try (split; congruence).
  rewrite andb_true_iff. unfold char_eqb. rewrite N.eqb_eq, IH.
  split; [intros [-> ->]; reflexivity | intros E; inversion E; auto].
Qed.

Lemma jsstring_eqb_refl k : jsstring_eqb k k = true.
Proof. now apply jsstring_eqb_eq. Qed.

Lemma replace_prop_found {A} (props : list (jsstring * A)) k v : forall props',
  replace_prop props k v = Some props' -> lookup props' k = Some v.
Proof.
  induction props as [|[k' v'] props IH]; intros props'; cbn [replace_prop];
    [discriminate|].
  destruct (jsstring_eqb k' k) eqn:E.
  - intros H; inversion H; subst. cbn [lookup]. now rewrite E.
  - destruct (replace_prop props k v) as [r'|]; [|discriminate].
    intros H; inversion H; subst. cbn [lookup]. rewrite E. now apply IH.
Qed.

Lemma replace_prop_absent {A} (props : list (jsstring * A)) k v :
  replace_prop props k v = None ->
  Forall (fun kv => jsstring_eqb (fst kv) k = false) props.
Proof.
  induction props as [|[k' v'] props IH]; cbn [replace_prop];
    [constructor|].
  destruct (jsstring_eqb k' k) eqn:E; [discriminate|].
  destruct (replace_prop props k v); [discriminate|].
  intros _. constructor; [exact E | now apply IH].
Qed.

Lemma lookup_append {A} (props : list (jsstring * A)) k v :
  Forall (fun kv => jsstring_eqb (fst kv) k = false) props ->
  lookup (props ++ [(k, v)]) k = Some v.
Proof.
  induction 1 as [|[k' v'] props E F IH]; cbn [app lookup].
  - now rewrite jsstring_eqb_refl.
  - cbn [fst] in E. now rewrite E.
Qed.

Lemma lookup_insert_index {A} (props : list (jsstring * A)) i k v :
  Forall (fun kv => jsstring_eqb (fst kv) k = false) props ->
  lookup (insert_index props i k v) k = Some v.
Proof.
  induction 1 as [|[k' v'] props E F IH]; cbn [insert_index].
  - cbn [lookup]. now rewrite jsstring_eqb_refl.
  - cbn [fst] in E.
    destruct (index_of_key k') as [j|];
      [destruct (j <? i)|]; cbn [lookup];
      rewrite ?E, ?jsstring_eqb_refl; auto.
Qed.

(** A property just defined is the one read back. *)
Lemma lookup_obj_define {A} (props : list (jsstring * A)) k v :
  lookup (obj_define props k v) k = Some v.
Proof.
  unfold obj_define.
  destruct (replace_prop props k v) as [props'|] eqn:E.
  - now apply (replace_prop_found props k v).
  - apply replace_prop_absent in E.
    destruct (index_of_key k);
      [now apply lookup_insert_index | now apply lookup_append].
Qed.

(** ** loadReminders *)

(** C8 as stated fails: the stored text [[{}]] holds a record with none of
    the properties of a reminder, and [loadReminders] puts one object in
    the list, whose only property is an Invalid Date. *)
Lemma C8_counterexample :
  reminders (loadReminders utc_host run0 (mount t_jan15_1000 (Some (str "[{}]")) []))
  = [[(k_time, FDate None)]]
  /\ map as_Reminder
       (reminders (loadReminders utc_host run0
                     (mount t_jan15_1000 (Some (str "[{}]")) [])))
     = [None].
Proof. split; reflexivity. Qed.

Lemma map_opt_fails {A B} (f : A -> option B) (x : A) (l : list A) :
  In x l -> f x = None -> map_opt f l = None.
Proof.
  intros Hin Hx. induction l as [|y l IH]; [destruct Hin|].
  cbn [map_opt]. destruct Hin as [E|Hin].
  - subst y. now rewrite Hx.
  - rewrite (IH Hin). now destruct (f y).
Qed.

Lemma read_fails_decode h run text :
  read_fails run (Some text) -> storage_ok run = true ->
  text <> [] /\ decode h text = None.
Proof.
  intros U Hok. unfold decode.
  remember (Some text) as st eqn:Est.
  destruct U as [stored Hf | t Hne Hp | t v Hp Hv | t l Hp Hin
                | t l props tm Hp Hin Hl Hc];
    try congruence; inversion Est; subst t; rewrite Hp.
  - split; [exact Hne | reflexivity].
  - split; [intros ->; discriminate Hp|].
    destruct v; try reflexivity. exfalso. eapply Hv. reflexivity.
  - split; [intros ->; discriminate Hp|].
    now apply (map_opt_fails (revive h) JNull).
  - split; [intros ->; discriminate Hp|].
    apply (map_opt_fails (revive h) (JObj props)); [exact Hin|].
    unfold revive. cbn [get_time]. rewrite Hl. cbn [option_map converts].
    now rewrite Hc.
Qed.

Lemma loadReminders_fails h run s :
  read_fails run (storage s) ->
  loadReminders h run s = console_error (str "Error loading reminders:") s.
Proof.
  intros U. unfold loadReminders.
  destruct (storage_ok run) eqn:Hok; [|reflexivity].
  destruct (storage s) as [text|] eqn:Hs.
  - destruct (read_fails_decode h run text U Hok) as [Hne Hd].
    rewrite Hd. destruct text; [congruence | reflexivity].
  - inversion U; congruence.
Qed.

Lemma lookup_spread props k :
  lookup (spread (JObj props)) k = option_map FJson (lookup props k).
Proof.
  cbn [spread]. induction props as [|[k' v] props IH]; [reflexivity|].
  cbn [map lookup fst snd]. now destruct (jsstring_eqb k' k).
Qed.

Lemma jsstring_eqb_neq a b : jsstring_eqb a b = false <-> a <> b.
Proof.
  rewrite <- jsstring_eqb_eq. destruct (jsstring_eqb a b); split; congruence.
Qed.

Lemma jsstring_eqb_trans_false a b c :
  jsstring_eqb a b = true -> jsstring_eqb c b = false ->
  jsstring_eqb a c = false.
Proof.
  intros E N. apply jsstring_eqb_eq in E. subst a.
  apply jsstring_eqb_neq. apply jsstring_eqb_neq in N. congruence.
Qed.

(** Defining a property leaves the others as they are. *)
Lemma lookup_obj_define_other {A} (props : list (jsstring * A)) k v k' :
  jsstring_eqb k' k = false ->
  lookup (obj_define props k v) k' = lookup props k'.
Proof.
  intros N.
  assert (Nk : jsstring_eqb k k' = false).
  { apply jsstring_eqb_neq. apply jsstring_eqb_neq in N. congruence. }
  unfold obj_define.
  destruct (replace_prop props k v) as [props'|] eqn:E.
  - revert props' E.
    induction props as [|[a x] props IH]; intros props'; cbn [replace_prop];
      [discriminate|].
    destruct (jsstring_eqb a k) eqn:Ea.
    + intros H; inversion H; subst. cbn [lookup].
      now rewrite (jsstring_eqb_trans_false a k k' Ea N).
    + destruct (replace_prop props k v) as [r'|]; [|discriminate].
      intros H; inversion H; subst. cbn [lookup]. now rewrite (IH r' eq_refl).
  - clear E. destruct (index_of_key k) as [i|].
    + induction props as [|[a x] props IH]; cbn [insert_index lookup].
      * now rewrite Nk.
      * destruct (index_of_key a) as [j|];
          [destruct (j <? i)|]; cbn [lookup]; rewrite ?Nk, ?IH; reflexivity.
    + induction props as [|[a x] props IH]; cbn [app lookup].
      * now rewrite Nk.
      * now rewrite IH.
Qed.

Lemma revive_loadable h j :
  loadable j -> exists o, revive h j = Some o /\ loaded_from h j o.
Proof.
  intros (props & -> & Hc). unfold revive. cbn [get_time]. rewrite Hc.
  eexists. split; [reflexivity|]. exists props. split; [reflexivity|]. split.
  - eexists. split; [apply lookup_obj_define|].
    split; [intros E | intros text E]; rewrite E; reflexivity.
  - intros k Hk. rewrite lookup_obj_define_other by exact Hk.
    apply lookup_spread.
Qed.

Lemma decode_loadable h l :
  Forall loadable l ->
  exists os, map_opt (revive h) l = Some os /\ Forall2 (loaded_from h) l os.
Proof.
  induction 1 as [|j l Hj F (os & E & F2)].
  - exists []. split; [reflexivity | constructor].
  - destruct (revive_loadable h j Hj) as (o & Eo & Ho).
    exists (o :: os). cbn [map_opt]. rewrite Eo, E.
    split; [reflexivity | now constructor].
Qed.

(** C8, amended: when the read resolves and finds nothing, or an empty
    string, [loadReminders] changes nothing at all.  When the read throws,
    or the stored text is not JSON, is JSON other than an array, or is an
    array with a null element or with a record whose [time] does not
    convert, the failure is caught and logged with [console.error], and
    nothing else happens: the list is left as it was (so empty when the
    component mounts), no dialog is shown, the store and the backend are
    untouched.  The records of a stored array are not validated: every
    array of records that load replaces the list, one object per record in
    order, each with the properties of its record and a [time] that is a
    [Date] (an Invalid Date for a record without [time]). *)
Theorem C8_loadReminders_unreadable h run s :
  (nothing_stored run (storage s) -> loadReminders h run s = s)
  /\ (read_fails run (storage s) ->
      loadReminders h run s = console_error (str "Error loading reminders:") s
      /\ reminders (loadReminders h run s) = reminders s
      /\ alerts (loadReminders h run s) = alerts s
      /\ console (loadReminders h run s)
         = console s ++ [str "Error loading reminders:"])
  /\ (nothing_stored run (storage s) \/ read_fails run (storage s) ->
      forall now stored sched,
        s = mount now stored sched -> reminders (loadReminders h run s) = [])
  /\ (forall text l,
        storage_ok run = true -> storage s = Some text ->
        JSON_parse text = Some (JArr l) -> Forall loadable l ->
        Forall2 (loaded_from h) l (reminders (loadReminders h run s))
        /\ alerts (loadReminders h run s) = alerts s
        /\ console (loadReminders h run s) = console s).
Proof.
  assert (N : nothing_stored run (storage s) -> loadReminders h run s = s).
  { intros [Hok Hs]. unfold loadReminders. rewrite Hok.
    destruct Hs as [Hs|Hs]; rewrite Hs; reflexivity. }
  split; [exact N|]. split; [|split].
  - intros U. rewrite (loadReminders_fails h run s U). repeat split.
  - intros [Hn|U] now stored sched E.
    + rewrite (N Hn). now subst s.
    + rewrite (loadReminders_fails h run s U). now subst s.
  - intros text l Hok Hs Hp F.
    destruct (decode_loadable h l F) as (os & E & F2).
    unfold loadReminders, decode. rewrite Hok, Hs, Hp, E.
    destruct text as [|c text]; [discriminate Hp|].
    cbn [truthy reminders alerts console setReminders]. repeat split.
    exact F2.
Qed.

Lemma C8_loadReminders_unreadable_witness :
  (read_fails run0 (storage (mount t_jan15_1000 (Some (str "{oops")) []))
   /\ reminders (loadReminders utc_host run0
                   (mount t_jan15_1000 (Some (str "{oops")) [])) = []
   /\ console (loadReminders utc_host run0
                 (mount t_jan15_1000 (Some (str "{oops")) []))
      = [str "Error loading reminders:"])
  /\ (Forall loadable [JObj [(str "n", JNum (Int 7))]]
      /\ Forall2 (loaded_from utc_host) [JObj [(str "n", JNum (Int 7))]]
           (reminders (loadReminders utc_host run0
                         (mount t_jan15_1000 (Some stored_record) [])))).
Proof.
  assert (U : read_fails run0
                (storage (mount t_jan15_1000 (Some (str "{oops")) []))).
  { apply not_json; [discriminate | reflexivity]. }
  assert (F : Forall loadable [JObj [(str "n", JNum (Int 7))]]).
  { constructor; [|constructor]. eexists. split; reflexivity. }
  pose proof (C8_loadReminders_unreadable utc_host run0
                (mount t_jan15_1000 (Some (str "{oops")) [])) as T.
  pose proof (C8_loadReminders_unreadable utc_host run0
                (mount t_jan15_1000 (Some stored_record) [])) as T'.
  split.
  - split; [exact U|]. split.
    + exact (proj1 (proj2 (proj1 (proj2 T) U))).
    + exact (proj2 (proj2 (proj2 (proj1 (proj2 T) U)))).
  - split; [exact F|].
    exact (proj1 (proj2 (proj2 (proj2 T')) stored_record _
                    eq_refl eq_refl eq_refl F)).
Defined.

(** A record whose [time] has a property named [toString] makes
    [new Date(r.time)] throw: nothing is loaded. *)
Example time_that_throws :
  let text := str "[{" ++ quote (str "time") ++ str ":{"
              ++ quote (str "toString") ++ str ":1}}]" in
  read_fails run0 (Some text)
  /\ loadReminders utc_host run0 (mount t_jan15_1000 (Some text) [])
     = console_error (str "Error loading reminders:")
         (mount t_jan15_1000 (Some text) []).
Proof.
  split; [|reflexivity].
  eapply time_throws with (props := [(k_time, JObj [(str "toString", JNum (Int 1))])]);
    [reflexivity | now left | reflexivity | reflexivity].
Qed.

(** An array is joined before it is read as a date. *)
Example ToString_array :
  ToString (JArr [JNum (Int 1); JArr [JNum (Int 2); JNull]; JStr (str "a");
                  JObj []])
  = Some (str "1,2,,a,[object Object]").
Proof. reflexivity. Qed.


(** ** Identifiers *)

Lemma addReminder_reminders h run s :
  reminders (addReminder h run s)
  = if input_rejected s then reminders s
    else reminders s ++ [obj (new_reminder run s)].
Proof.
  unfold addReminder. destruct (input_rejected s); [reflexivity|].
  unfold saveReminders. destruct (storage_ok run); reflexivity.
Qed.

Lemma deleteReminder_reminders h run i s :
  reminders (deleteReminder h run i s)
  = filter (fun r => id_differs r i) (reminders s).
Proof.
  unfold deleteReminder, saveReminders. destruct (storage_ok run); reflexivity.
Qed.

(** Removing reminders keeps the remaining ids distinct. *)
Lemma ids_filter_NoDup (keep : object -> bool) (rs : list object) :
  NoDup (ids rs) -> NoDup (ids (filter keep rs)).
Proof.
  unfold ids. intros Hrs.
  induction rs as [|o rs IH]; cbn [filter map] in *; [constructor|].
  apply NoDup_cons_iff in Hrs. destruct Hrs as [Hfresh Hrest].
  destruct (keep o); cbn [map]; [|now apply IH].
  apply NoDup_cons_iff. split; [|now apply IH].
  intros Hin. apply Hfresh. apply in_map_iff in Hin.
  destruct Hin as (o' & Eo & Ho). apply filter_In in Ho.
  apply in_map_iff. exists o'. tauto.
Qed.

Lemma perform_fresh_NoDup h a s :
  fresh_action a s -> NoDup (ids (reminders s)) ->
  NoDup (ids (reminders (perform h a s))).
Proof.
  destruct a as [run | run i | v | v | t]; cbn [perform fresh_action];
    intros Hf Hn.
  - rewrite addReminder_reminders. destruct (input_rejected s); [exact Hn|].
    unfold ids in *. rewrite map_app. simpl.
    apply NoDup_rev in Hn. rewrite <- (rev_involutive (_ ++ _)).
    apply NoDup_rev. rewrite rev_app_distr. simpl.
    constructor; [|exact Hn]. rewrite <- in_rev. exact Hf.
  - rewrite deleteReminder_reminders. now apply ids_filter_NoDup.
  - exact Hn.
  - exact Hn.
  - unfold onTimeChange. destruct t; exact Hn.
Qed.

(** C9 as stated fails: nothing keeps [Math.random().toString()] from
    returning the same value twice; two adds with the same value give two
    live reminders with the same id, and after a delete the same id can be
    given again. *)
Lemma C9_counterexample :
  ids (reminders (perform_all utc_host (two_adds run0 run0)
                    (mount t_jan15_1000 None [])))
  = [id_value (str "0.42"); id_value (str "0.42")]
  /\ ~ NoDup (ids (reminders (perform_all utc_host (two_adds run0 run0)
                                (mount t_jan15_1000 None []))))
  /\ ids (reminders (perform_all utc_host
                       [TypeName (str "Pills"); TypeRepeatCount (str "1");
                        Add run0; Delete run0 (str "0.42");
                        TypeName (str "Water"); TypeRepeatCount (str "2");
                        Add run0]
                       (mount t_jan15_1000 None [])))
     = [id_value (str "0.42")].
Proof.
  split; [reflexivity|]. split; [|reflexivity].
  intros H.
  change (NoDup [id_value (str "0.42"); id_value (str "0.42")]) in H.
  inversion H as [|x l Hn Hd]; subst. apply Hn. left. reflexivity.
Qed.

(** C9, amended: in every collection reached from an empty one by adds,
    deletes and form edits in which each add draws a random id that no
    live reminder has, the ids of the live reminders are pairwise
    distinct.  (Nothing in the code makes the draws distinct, and an id
    of a deleted reminder can be drawn again.) *)
Theorem C9_ids_unique_when_fresh h l s :
  reminders s = [] ->
  all_fresh h l s ->
  NoDup (ids (reminders (perform_all h l s))).
Proof.
  intros He. assert (Hn : NoDup (ids (reminders s))) by (rewrite He; constructor).
  clear He. revert s Hn.
  induction l as [|a l IH]; simpl; intros s Hn Hf; [exact Hn|].
  destruct Hf as [Ha Hl].
  apply IH; [|exact Hl]. now apply perform_fresh_NoDup.
Qed.

Lemma C9_ids_unique_when_fresh_witness :
  NoDup (ids (reminders (perform_all utc_host (two_adds run0 run1)
                           (mount t_jan15_1000 None [])))).
Proof.
  apply C9_ids_unique_when_fresh; [reflexivity|].
  simpl. repeat split; try exact I.
  - intros [].
  - intros [E|[]]. discriminate E.
Defined.


(** ** Fixed-width numerals *)

Lemma digit_val_char d : 0 <= d <= 9 -> digit_val (digit_char d) = Some d.
Proof.
  intros H.
  assert (E : d = 0 \/ d = 1 \/ d = 2 \/ d = 3 \/ d = 4 \/ d = 5 \/ d = 6
              \/ d = 7 \/ d = 8 \/ d = 9) by lia.
  destruct E as [E|[E|[E|[E|[E|[E|[E|[E|[E|E]]]]]]]]]; subst d; reflexivity.
Qed.

Lemma read_digits_last w : forall acc s,
  read_digits (S w) acc s
  = ' (a, s') <- read_digits w acc s ;; read_digits 1 a s'.
Proof.
  induction w as [|w IH]; intros acc s; [reflexivity|].
  change (read_digits (S (S w)) acc s)
    with (match s with
          | c :: r => ' d <- digit_val c ;; read_digits (S w) (acc * 10 + d) r
          | [] => None
          end).
  destruct s as [|c r]; [reflexivity|]. simpl read_digits at 2.
  destruct (digit_val c) as [d|]; [|reflexivity]. apply IH.
Qed.

Lemma read_digits_pad w : forall n acc rest,
  0 <= n < 10 ^ Z.of_nat w ->
  read_digits w acc (pad w n ++ rest) = Some (acc * 10 ^ Z.of_nat w + n, rest).
Proof.
  induction w as [|w IH]; intros n acc rest H.
  - simpl in *. f_equal. f_equal. lia.
  - rewrite Nat2Z.inj_succ, Z.pow_succ_r in * by lia.
    rewrite read_digits_last. simpl pad. rewrite <- app_assoc.
    rewrite IH by (divmod; lia). cbv iota beta. cbn [app read_digits].
    rewrite digit_val_char by (divmod; lia). f_equal. f_equal.
    pose proof (Z.div_mod n 10 ltac:(lia)) as Hn.
    rewrite Hn at 3. ring.
Qed.

Lemma pad_head w n :
  exists c d r, pad (S w) n = c :: r /\ digit_val c = Some d.
Proof.
  revert n. induction w as [|w IH]; intros n.
  - exists (digit_char (n mod 10)), (n mod 10), []. split; [reflexivity|].
    apply digit_val_char. divmod; lia.
  - destruct (IH (n / 10)) as (c & d & r & E & D).
    exists c, d, (r ++ [digit_char (n mod 10)]).
    split; [|exact D]. change (pad (S (S w)) n)
      with (pad (S w) (n / 10) ++ [digit_char (n mod 10)]).
    now rewrite E.
Qed.

(** ** toISOString and Date.parse *)

Lemma read_iso_year_ok y rest :
  -999999 <= y <= 999999 ->
  read_iso_year (iso_year y ++ rest) = Some (y, rest).
Proof.
  intros H. unfold iso_year, read_iso_year.
  destruct ((0 <=? y) && (y <=? 9999))%bool eqn:E.
  - apply andb_true_iff in E. destruct E as [E1 E2].
    apply Z.leb_le in E1, E2.
    destruct (pad_head 3 y) as (c & d & r & Ep & D).
    replace (expect 43 (pad 4 y ++ rest)) with (@None jsstring)
      by (rewrite Ep; symmetry; apply (expect_digit c d 43 _ D); left;
          reflexivity).
    replace (expect 45 (pad 4 y ++ rest)) with (@None jsstring)
      by (rewrite Ep; symmetry; apply (expect_digit c d 45 _ D); left;
          reflexivity).
    rewrite (read_digits_pad 4 y 0 rest).
    + reflexivity.
    + change (10 ^ Z.of_nat 4) with 10000. lia.
  - destruct (Z.ltb_spec y 0).
    + change (expect 43 ((45%N :: pad 6 (- y)) ++ rest)) with (@None jsstring).
      change (expect 45 ((45%N :: pad 6 (- y)) ++ rest))
        with (Some (pad 6 (- y) ++ rest)).
      cbv iota beta.
      rewrite (read_digits_pad 6 (- y) 0 rest)
        by (change (10 ^ Z.of_nat 6) with 1000000; lia).
      cbv iota beta. change (0 * 10 ^ Z.of_nat 6) with 0.
      destruct (Z.eqb_spec (0 + - y) 0); [lia|]. f_equal. f_equal. lia.
    + change (expect 43 ((43%N :: pad 6 y) ++ rest))
        with (Some (pad 6 y ++ rest)).
      cbv iota beta.
      rewrite (read_digits_pad 6 y 0 rest)
        by (change (10 ^ Z.of_nat 6) with 1000000; lia).
      reflexivity.
Qed.

Lemma YearFromTime_bounds t :
  Z.abs t <= maxTime -> -999999 <= YearFromTime t <= 999999.
Proof.
  intros H. unfold YearFromTime, civil_from_days, Day, msPerDay.
  unfold maxTime in H.
  set (z := t / 86400000 + 719468).
  assert (Hz : -99280532 <= z <= 100719468) by (subst z; divmod; lia).
  assert (Hd : 0 <= z mod 146097 < 146097) by (divmod; lia).
  destruct (yoe_bounds (z mod 146097) Hd) as (Hy & _).
  cbv zeta in Hy. cbn [fst].
  set (yoe := (z mod 146097 - z mod 146097 / 1460 + z mod 146097 / 36524
               - z mod 146097 / 146096) / 365) in *.
  assert (He : -680 <= z / 146097 <= 690) by (divmod; lia).
  destruct (_ <=? 1); lia.
Qed.

Lemma time_fields t :
  MakeTime (HourFromTime t) (MinFromTime t) (SecFromTime t) (msFromTime t)
  = TimeWithinDay t
  /\ 0 <= HourFromTime t <= 23 /\ 0 <= MinFromTime t <= 59
  /\ 0 <= SecFromTime t <= 59 /\ 0 <= msFromTime t <= 999.
Proof.
  unfold MakeTime, HourFromTime, MinFromTime, SecFromTime, msFromTime,
    TimeWithinDay, msPerDay, msPerHour, msPerMinute, msPerSecond.
  divmod; lia.
Qed.

Lemma MakeDate_Day t : MakeDate (Day t) (TimeWithinDay t) = t.
Proof. unfold MakeDate, Day, TimeWithinDay, msPerDay. divmod; lia. Qed.

Lemma DaysInMonth_le y m : DaysInMonth y m <= 31.
Proof.
  unfold DaysInMonth.
  destruct (InLeapYear y); destruct m as [|p|p]; try lia;
    do 4 (try destruct p as [p|p|]); lia.
Qed.

Theorem iso_parse_toISOString t :
  Z.abs t <= maxTime -> iso_parse (toISOString t) = Some t.
Proof.
  intros H. unfold toISOString, iso_parse.
  pose proof (YearFromTime_bounds t H) as Hy.
  pose proof (time_fields t) as (Ht & Hh & Hmi & Hs & Hms).
  pose proof (civil_from_days_spec (Day t)) as Hc.
  pose proof (MakeDay_civil t) as Hmd.
  unfold YearFromTime, MonthFromTime, DateFromTime in *.
  destruct (civil_from_days (Day t)) as [[y m] d]. cbn [fst snd] in *.
  destruct Hc as (_ & Hm & Hd).
  assert (Hd31 : d <= 31).
  { pose proof (DaysInMonth_le y m). lia. }
  rewrite read_iso_year_ok by exact Hy. cbv iota beta.
  cbn [app expect char_eqb N.eqb Pos.eqb].
  rewrite read_digits_pad by (change (10 ^ Z.of_nat 2) with 100; lia). cbv iota beta.
  cbn [app expect char_eqb N.eqb Pos.eqb].
  rewrite read_digits_pad by (change (10 ^ Z.of_nat 2) with 100; lia). cbv iota beta.
  cbn [app expect char_eqb N.eqb Pos.eqb].
  rewrite read_digits_pad by (change (10 ^ Z.of_nat 2) with 100; lia). cbv iota beta.
  cbn [app expect char_eqb N.eqb Pos.eqb].
  rewrite read_digits_pad by (change (10 ^ Z.of_nat 2) with 100; lia). cbv iota beta.
  cbn [app expect char_eqb N.eqb Pos.eqb].
  rewrite read_digits_pad by (change (10 ^ Z.of_nat 2) with 100; lia). cbv iota beta.
  cbn [app expect char_eqb N.eqb Pos.eqb].
  rewrite (read_digits_pad 3 _ 0 [90%N]) by (change (10 ^ Z.of_nat 3) with 1000; lia). cbv iota beta.
  cbn [app expect char_eqb N.eqb Pos.eqb].
  replace (0 * 10 ^ Z.of_nat 2 + (m + 1) - 1) with m by lia.
  replace (0 * 10 ^ Z.of_nat 2 + (m + 1)) with (m + 1) by lia.
  replace (0 * 10 ^ Z.of_nat 2 + d) with d by lia.
  replace (0 * 10 ^ Z.of_nat 2 + HourFromTime t) with (HourFromTime t) by lia.
  replace (0 * 10 ^ Z.of_nat 2 + MinFromTime t) with (MinFromTime t) by lia.
  replace (0 * 10 ^ Z.of_nat 2 + SecFromTime t) with (SecFromTime t) by lia.
  replace (0 * 10 ^ Z.of_nat 3 + msFromTime t) with (msFromTime t) by lia.
  replace ((1 <=? m + 1) && (m + 1 <=? 12) && (1 <=? d)
           && (d <=? DaysInMonth y m) && (HourFromTime t <=? 23)
           && (MinFromTime t <=? 59) && (SecFromTime t <=? 59))%bool
    with true.
  - rewrite Hmd, Ht, MakeDate_Day. reflexivity.
  - symmetry. repeat (apply andb_true_iff; split); apply Z.leb_le; lia.
Qed.


(** ** String literals *)

Lemma hex_val_char d : 0 <= d <= 15 -> hex_val (hex_char d) = Some d.
Proof.
  intros H.
  assert (E : d = 0 \/ d = 1 \/ d = 2 \/ d = 3 \/ d = 4 \/ d = 5 \/ d = 6
              \/ d = 7 \/ d = 8 \/ d = 9 \/ d = 10 \/ d = 11 \/ d = 12
              \/ d = 13 \/ d = 14 \/ d = 15) by lia.
  repeat (destruct E as [E|E]; [subst d; reflexivity|]).
  subst d; reflexivity.
Qed.

Lemma parse_chars_raw c s t rest :
  (32 <= c)%N -> c <> 34%N -> c <> 92%N ->
  parse_chars s = Some (t, rest) ->
  parse_chars (c :: s) = Some (c :: t, rest).
Proof.
  intros H1 H2 H3 Hs. cbn [parse_chars].
  destruct (N.eqb_spec c 34); [contradiction|].
  destruct (N.eqb_spec c 92); [contradiction|].
  destruct (N.ltb_spec c 32); [lia|].
  now rewrite Hs.
Qed.

Lemma parse_chars_escape c s t rest :
  (c < 65536)%N ->
  parse_chars s = Some (t, rest) ->
  parse_chars (unicode_escape c ++ s) = Some (c :: t, rest).
Proof.
  intros Hc Hs. unfold unicode_escape.
  cbn [app parse_chars N.eqb Pos.eqb].
  assert (Hn : 0 <= Z.of_N c < 65536) by lia.
  rewrite !hex_val_char by (divmod; lia).
  rewrite Hs. f_equal. f_equal. f_equal.
  rewrite <- (N2Z.id c) at 5. f_equal.
  set (n := Z.of_N c) in *. clearbody n. divmod; lia.
Qed.

Lemma surrogate_range c :
  (is_high c = true -> (55296 <= c <= 56319)%N)
  /\ (is_low c = true -> (56320 <= c <= 57343)%N).
Proof.
  unfold is_high, is_low, in_range.
  split; intros H; apply andb_true_iff in H; destruct H as [A B];
    apply N.leb_le in A, B; lia.
Qed.

Lemma parse_chars_quote : forall n s rest,
  (length s <= n)%nat ->
  parse_chars (quote_chars s ++ 34%N :: rest) = Some (s, rest).
Proof.
  induction n as [|n IH]; intros s rest Hl;
    destruct s as [|c r]; simpl in Hl; try lia; try reflexivity.
  assert (IHr : parse_chars (quote_chars r ++ 34%N :: rest) = Some (r, rest))
    by (apply IH; lia).
  cbn [quote_chars].
  destruct (N.eqb_spec c 8);
    [subst c; cbn [app parse_chars N.eqb Pos.eqb]; now rewrite IHr|].
  destruct (N.eqb_spec c 9);
    [subst c; cbn [app parse_chars N.eqb Pos.eqb]; now rewrite IHr|].
  destruct (N.eqb_spec c 10);
    [subst c; cbn [app parse_chars N.eqb Pos.eqb]; now rewrite IHr|].
  destruct (N.eqb_spec c 12);
    [subst c; cbn [app parse_chars N.eqb Pos.eqb]; now rewrite IHr|].
  destruct (N.eqb_spec c 13);
    [subst c; cbn [app parse_chars N.eqb Pos.eqb]; now rewrite IHr|].
  destruct (N.eqb_spec c 34);
    [subst c; cbn [app parse_chars N.eqb Pos.eqb]; now rewrite IHr|].
  destruct (N.eqb_spec c 92);
    [subst c; cbn [app parse_chars N.eqb Pos.eqb]; now rewrite IHr|].
  destruct (N.ltb_spec c 32).
  { rewrite <- app_assoc. apply parse_chars_escape; [lia | exact IHr]. }
  destruct (is_high c) eqn:Hh.
  { apply surrogate_range in Hh.
    destruct r as [|d r'].
    - apply parse_chars_escape; [lia | reflexivity].
    - destruct (is_low d) eqn:Hd.
      + apply surrogate_range in Hd. cbn [app].
        apply parse_chars_raw; try lia.
        apply parse_chars_raw; try lia.
        apply IH. simpl in Hl. lia.
      + rewrite <- app_assoc. apply parse_chars_escape; [lia | exact IHr]. }
  destruct (is_low c) eqn:Hw.
  { apply surrogate_range in Hw. rewrite <- app_assoc.
    apply parse_chars_escape; [lia | exact IHr]. }
  cbn [app]. apply parse_chars_raw; try lia; auto.
Qed.

Lemma parse_chars_quoted s rest :
  parse_chars (quote_chars s ++ 34%N :: rest) = Some (s, rest).
Proof. apply (parse_chars_quote (length s)). lia. Qed.


(** ** Numerals of any length *)

Lemma digits_value_snoc ds d :
  digits_value 10 (ds ++ [d]) = digits_value 10 ds * 10 + d.
Proof. unfold digits_value. now rewrite fold_left_app. Qed.

(** The numeral [digits_fuel] writes: digits whose value is [n], with no
    leading zero unless [n] is a single digit. *)
Lemma digits_fuel_spec f : forall n acc,
  0 <= n < 10 ^ Z.of_nat (S f) ->
  exists d ds,
    digits_fuel (S f) n acc = map digit_char (d :: ds) ++ acc
    /\ Forall is_digit (d :: ds)
    /\ digits_value 10 (d :: ds) = n
    /\ (d = 0 -> ds = []).
Proof.
  induction f as [|f IH]; intros n acc H.
  - change (10 ^ Z.of_nat 1) with 10 in H.
    exists n, []. cbn [digits_fuel].
    destruct (Z.ltb_spec n 10); [|lia].
    rewrite Z.mod_small by lia.
    split; [reflexivity|]. split; [|split; [|reflexivity]].
    + constructor; [unfold is_digit; lia | constructor].
    + unfold digits_value. simpl. lia.
  - rewrite Nat2Z.inj_succ, Z.pow_succ_r in H by lia.
    change (digits_fuel (S (S f)) n acc)
      with (if n <? 10 then digit_char (n mod 10) :: acc
            else digits_fuel (S f) (n / 10) (digit_char (n mod 10) :: acc)).
    destruct (Z.ltb_spec n 10).
    + exists n, []. rewrite Z.mod_small by lia.
      split; [reflexivity|]. split; [|split; [|reflexivity]].
      * constructor; [unfold is_digit; lia | constructor].
      * unfold digits_value. simpl. lia.
    + destruct (IH (n / 10) (digit_char (n mod 10) :: acc)) as (d & ds & E & F & V & Z0).
      { split; [apply Z.div_pos; lia|]. apply Z.div_lt_upper_bound; lia. }
      exists d, (ds ++ [n mod 10]). rewrite E.
      split; [|split; [|split]].
      * change (d :: ds ++ [n mod 10]) with ((d :: ds) ++ [n mod 10]).
        rewrite map_app, <- app_assoc. reflexivity.
      * change (d :: ds ++ [n mod 10]) with ((d :: ds) ++ [n mod 10]).
        apply Forall_app. split; [exact F|]. constructor; [|constructor].
        unfold is_digit. divmod; lia.
      * change (d :: ds ++ [n mod 10]) with ((d :: ds) ++ [n mod 10]).
        rewrite digits_value_snoc, V. divmod; lia.
      * intros D0. exfalso. rewrite (Z0 D0) in V. subst d.
        unfold digits_value in V. simpl in V.
        assert (1 <= n / 10) by (apply Z.div_le_lower_bound; lia). lia.
Qed.

Lemma digits_of_spec n :
  0 <= n ->
  exists d ds,
    digits_of n = map digit_char (d :: ds)
    /\ Forall is_digit (d :: ds)
    /\ digits_value 10 (d :: ds) = n
    /\ (d = 0 -> ds = []).
Proof.
  intros H. unfold digits_of.
  destruct (digits_fuel_spec (Z.to_nat (Z.log2 n)) n []) as (d & ds & E & R).
  - split; [exact H|].
    rewrite Nat2Z.inj_succ, Z2Nat.id by apply Z.log2_nonneg.
    destruct (Z.eq_dec n 0) as [->|Hn]; [reflexivity|].
    destruct (Z.log2_spec n ltac:(lia)) as [_ Hlt].
    eapply Z.lt_le_trans; [exact Hlt|].
    apply Z.pow_le_mono_l. pose proof (Z.log2_nonneg n). lia.
  - exists d, ds. rewrite E, app_nil_r. split; [reflexivity | exact R].
Qed.

Lemma take_drop_digits ds rest :
  Forall is_digit ds -> number_end rest ->
  take_digits digit_val (map digit_char ds ++ rest) = ds
  /\ drop_digits digit_val (map digit_char ds ++ rest) = rest.
Proof.
  intros F E. induction F as [|d ds Hd F IH]; cbn [map app].
  - destruct rest as [|c rest]; [split; reflexivity|].
    destruct E as (E & _). cbn [take_digits drop_digits]. rewrite E.
    split; reflexivity.
  - cbn [take_digits drop_digits]. rewrite (digit_val_char d Hd).
    destruct IH as [IH1 IH2]. rewrite IH1, IH2. split; reflexivity.
Qed.

Lemma expect_number_end c rest :
  number_end rest -> c = 46%N \/ c = 101%N \/ c = 69%N -> expect c rest = None.
Proof.
  intros E Hc. destruct rest as [|x rest]; [reflexivity|].
  destruct E as (_ & E1 & E2 & E3). apply expect_other.
  destruct Hc as [Hc | [Hc | Hc]]; subst c; assumption.
Qed.

Lemma parse_number_unsigned d ds rest sign :
  Forall is_digit (d :: ds) -> (d = 0 -> ds = []) -> number_end rest ->
  parse_unsigned sign (map digit_char (d :: ds) ++ rest)
  = Some (Int (sign * digits_value 10 (d :: ds)), rest).
Proof.
  intros F Z0 E. unfold parse_unsigned. cbv zeta.
  destruct (take_drop_digits (d :: ds) rest F E) as [Ht Hd].
  rewrite Ht, Hd.
  replace ((d =? 0) && negb (length ds =? 0)%nat)%bool with false.
  2:{ symmetry. destruct (Z.eqb_spec d 0) as [D|D]; [|reflexivity].
      rewrite (Z0 D). reflexivity. }
  rewrite (expect_number_end 46 rest E) by auto.
  rewrite (expect_number_end 101 rest E) by auto.
  rewrite (expect_number_end 69 rest E) by auto.
  cbv iota beta. rewrite app_nil_r. unfold mk_number. cbn [length Z.of_nat Z.sub Z.opp Z.add Z.leb Z.compare].
  f_equal. f_equal. f_equal. change (10 ^ 0) with 1. lia.
Qed.

Lemma parse_number_print z rest :
  Z.abs z < 10 ^ 21 -> number_end rest ->
  parse_number (print_number (Int z) ++ rest) = Some (Int z, rest).
Proof.
  intros Hz E. unfold print_number.
  destruct (Z.ltb_spec (Z.abs z) (10 ^ 21)); [|lia].
  destruct (digits_of_spec (Z.abs z) (Z.abs_nonneg z)) as (d & ds & Ed & F & V & Z0).
  rewrite Ed. unfold parse_number.
  destruct (Z.ltb_spec z 0).
  - change (expect 45 (([45%N] ++ map digit_char (d :: ds)) ++ rest))
      with (Some (map digit_char (d :: ds) ++ rest)).
    cbv iota beta.
    rewrite (parse_number_unsigned d ds rest (-1) F Z0 E). rewrite V.
    f_equal. f_equal. f_equal. lia.
  - cbn [app map].
    assert (Hd : is_digit d) by (inversion F; assumption).
    rewrite (expect_digit (digit_char d) d 45 _ (digit_val_char d Hd))
      by (left; reflexivity).
    cbv iota beta.
    pose proof (parse_number_unsigned d ds rest 1 F Z0 E) as P.
    cbn [app map] in P. rewrite P, V. f_equal. f_equal. f_equal. lia.
Qed.


(** ** JSON.parse on the text JSON.stringify writes for reminders *)

Lemma skip_ws_head c s : is_json_ws c = false -> skip_ws (c :: s) = c :: s.
Proof. intros H. cbn [skip_ws]. now rewrite H. Qed.

Lemma parse_value_string g s rest :
  parse_value (S g) (quote s ++ rest) = Some (JStr s, rest).
Proof.
  unfold quote. cbn [app]. rewrite <- app_assoc. cbn [app].
  cbn [parse_value]. rewrite skip_ws_head by reflexivity.
  cbn [N.eqb Pos.eqb]. now rewrite parse_chars_quoted.
Qed.

Lemma print_number_head z :
  Z.abs z < 10 ^ 21 ->
  exists c tl, print_number (Int z) = c :: tl /\ ((48 <= c <= 57)%N \/ c = 45%N).
Proof.
  intros Hz. unfold print_number.
  destruct (Z.ltb_spec (Z.abs z) (10 ^ 21)); [|lia].
  destruct (digits_of_spec (Z.abs z) (Z.abs_nonneg z)) as (d & ds & Ed & F & _).
  rewrite Ed. destruct (z <? 0).
  - eexists _, _. split; [reflexivity | now right].
  - eexists _, _. split; [reflexivity|]. left.
    inversion F as [|x l Hd _]; subst.
    pose proof (digit_val_range _ _ (digit_val_char d Hd)). lia.
Qed.

Lemma parse_value_int g z rest :
  Z.abs z < 10 ^ 21 -> number_end rest ->
  parse_value (S g) (print_number (Int z) ++ rest) = Some (JNum (Int z), rest).
Proof.
  intros Hz E. pose proof (parse_number_print z rest Hz E) as P.
  destruct (print_number_head z Hz) as (c & tl & Ec & Hc).
  rewrite Ec in *. cbn [app] in *. cbn [parse_value].
  assert (Hw : is_json_ws c = false)
    by (unfold is_json_ws; cmp_cases; reflexivity).
  rewrite skip_ws_head by exact Hw.
  destruct (N.eqb_spec c 123); [lia|]. destruct (N.eqb_spec c 91); [lia|].
  destruct (N.eqb_spec c 34); [lia|]. destruct (N.eqb_spec c 116); [lia|].
  destruct (N.eqb_spec c 102); [lia|]. destruct (N.eqb_spec c 110); [lia|].
  now rewrite P.
Qed.

(** One member of an object, followed by a comma or by the closing brace. *)
Lemma parse_members_next g acc k v text rest :
  parse_value g (text ++ 44%N :: rest) = Some (v, 44%N :: rest) ->
  parse_members (S g) acc (quote k ++ 58%N :: text ++ 44%N :: rest)
  = parse_members g (obj_define acc k v) rest.
Proof.
  intros Hv. cbn [parse_members]. unfold quote. cbn [app].
  rewrite skip_ws_head by reflexivity. cbn [expect char_eqb N.eqb Pos.eqb].
  rewrite <- app_assoc. cbn [app]. rewrite parse_chars_quoted.
  rewrite skip_ws_head by reflexivity. cbn [expect char_eqb N.eqb Pos.eqb].
  rewrite Hv. rewrite skip_ws_head by reflexivity. reflexivity.
Qed.

Lemma parse_members_last g acc k v text rest :
  parse_value g (text ++ 125%N :: rest) = Some (v, 125%N :: rest) ->
  parse_members (S g) acc (quote k ++ 58%N :: text ++ 125%N :: rest)
  = Some (obj_define acc k v, rest).
Proof.
  intros Hv. cbn [parse_members]. unfold quote. cbn [app].
  rewrite skip_ws_head by reflexivity. cbn [expect char_eqb N.eqb Pos.eqb].
  rewrite <- app_assoc. cbn [app]. rewrite parse_chars_quoted.
  rewrite skip_ws_head by reflexivity. cbn [expect char_eqb N.eqb Pos.eqb].
  rewrite Hv. rewrite skip_ws_head by reflexivity. reflexivity.
Qed.

Lemma number_end_sep c rest :
  c = 44%N \/ c = 125%N \/ c = 93%N -> number_end (c :: rest).
Proof. intros [H|[H|H]]; subst c; repeat split; discriminate. Qed.

Lemma to_json_obj r t :
  time r = Some t ->
  to_json (obj r) = reminder_json (id r) (name r) t (repeatCount r).
Proof. intros H. unfold to_json, obj. cbn [map fst snd field_json]. now rewrite H. Qed.

Lemma print_reminder_json i n t c :
  print (reminder_json i n t c)
  = 123%N :: quote k_id ++ 58%N :: quote i ++ 44%N ::
    quote k_name ++ 58%N :: quote n ++ 44%N ::
    quote k_time ++ 58%N :: quote (toISOString t) ++ 44%N ::
    quote k_repeatCount ++ 58%N :: print_number (Int c) ++ 125%N :: [].
Proof.
  unfold reminder_json. cbn [print map join fst snd].
  repeat (rewrite <- ?app_assoc; cbn [app]). reflexivity.
Qed.

Lemma parse_value_reminder g i n t c rest :
  Z.abs c < 10 ^ 21 ->
  parse_value (6 + g) (print (reminder_json i n t c) ++ rest)
  = Some (reminder_json i n t c, rest).
Proof.
  intros Hc. rewrite print_reminder_json.
  change (6 + g)%nat with (S (S (S (S (S (S g)))))).
  cbn [parse_value]. cbn [app].
  rewrite skip_ws_head by reflexivity. cbn [N.eqb Pos.eqb].
  unfold quote at 1. cbn [app].
  rewrite skip_ws_head by reflexivity. cbn [expect char_eqb N.eqb Pos.eqb].
  change (34%N :: quote_chars k_id ++ [34%N]) with (quote k_id).
  repeat (rewrite <- ?app_assoc; cbn [app]).
  rewrite parse_members_next with (v := JStr i)
    by apply parse_value_string.
  rewrite parse_members_next with (v := JStr n)
    by apply parse_value_string.
  rewrite parse_members_next with (v := JStr (toISOString t))
    by apply parse_value_string.
  rewrite parse_members_last with (v := JNum (Int c))
    by (apply parse_value_int; [exact Hc | apply number_end_sep; auto]).
  reflexivity.
Qed.

Lemma parse_elements_reminders : forall js g rest,
  js <> [] -> Forall is_reminder_json js ->
  parse_elements (length js + 6 + g) (join (map print js) ++ 93%N :: rest)
  = Some (js, rest).
Proof.
  induction js as [|j js IH]; intros g rest Hne F; [congruence|].
  inversion F as [|x l Hj F']; subst.
  destruct Hj as (i & n & t & c & Ej & Hc). subst j.
  destruct js as [|j2 js].
  - cbn [map join length]. change (1 + 6 + g)%nat with (S (6 + g)).
    cbn [parse_elements]. rewrite parse_value_reminder by exact Hc.
    rewrite skip_ws_head by reflexivity. reflexivity.
  - change (join (map print (reminder_json i n t c :: j2 :: js)))
      with (print (reminder_json i n t c) ++ 44%N :: join (map print (j2 :: js))).
    rewrite <- app_assoc. cbn [app].
    change (length (reminder_json i n t c :: j2 :: js) + 6 + g)%nat
      with (S (length (j2 :: js) + 6 + g)).
    cbn [parse_elements].
    replace (length (j2 :: js) + 6 + g)%nat
      with (6 + (length (j2 :: js) + g))%nat at 1 by lia.
    rewrite parse_value_reminder by exact Hc.
    rewrite skip_ws_head by reflexivity. cbn [expect char_eqb N.eqb Pos.eqb].
    rewrite IH by (auto; discriminate). reflexivity.
Qed.

Lemma print_reminder_head i n t c :
  exists tl,
    print (reminder_json i n t c)
    = 123%N :: 34%N :: 105%N :: 100%N :: 34%N :: 58%N :: 34%N :: tl.
Proof.
  rewrite print_reminder_json.
  change (quote k_id) with [34%N; 105%N; 100%N; 34%N].
  unfold quote at 1. cbn [app]. eexists. reflexivity.
Qed.

Lemma print_reminder_length i n t c :
  (7 <= length (print (reminder_json i n t c)))%nat.
Proof.
  destruct (print_reminder_head i n t c) as [tl E]. rewrite E.
  cbn [length]. repeat apply le_n_S. apply Nat.le_0_l.
Qed.

Lemma join_length js :
  Forall is_reminder_json js ->
  (7 * length js <= length (join (map print js)))%nat.
Proof.
  induction 1 as [|j js Hj F IH]; [simpl; lia|].
  destruct Hj as (i & n & t & c & Ej & Hc). subst j.
  pose proof (print_reminder_length i n t c) as Hl.
  destruct js as [|j2 js]; [cbn [map join length] in *; lia|].
  change (join (map print (reminder_json i n t c :: j2 :: js)))
    with (print (reminder_json i n t c) ++ 44%N :: join (map print (j2 :: js))).
  rewrite length_app. cbn [length] in *. lia.
Qed.

Lemma JSON_parse_reminders js :
  Forall is_reminder_json js ->
  JSON_parse (print (JArr js)) = Some (JArr js).
Proof.
  intros F. unfold JSON_parse. cbn [print].
  destruct js as [|j js]; [reflexivity|].
  pose proof (join_length (j :: js) F) as Hl.
  set (text := join (map print (j :: js))) in *.
  assert (Hh : exists tl, text = 123%N :: tl).
  { inversion F as [|x l Hj _]; subst.
    destruct Hj as (i & n & t & c & Ej & _). subst j. subst text.
    destruct js; cbn [map join]; rewrite print_reminder_json;
      eexists; reflexivity. }
  destruct Hh as [tl Eh].
  cbn [length]. rewrite length_app. cbn [length].
  assert (Hf : exists g, S (length text + 1) = (S (length js) + 6 + g)%nat).
  { exists (length text - length js - 5)%nat. cbn [length] in Hl. lia. }
  destruct Hf as [g Hf]. rewrite Hf.
  cbn [parse_value]. rewrite skip_ws_head by reflexivity.
  cbn [N.eqb Pos.eqb]. rewrite Eh. cbn [app].
  rewrite skip_ws_head by reflexivity. cbn [expect char_eqb N.eqb Pos.eqb].
  change (S (length js)) with (length (j :: js)).
  change (123%N :: tl ++ [93%N]) with ((123%N :: tl) ++ [93%N]).
  rewrite <- Eh. subst text.
  rewrite (parse_elements_reminders (j :: js) g []) by (auto; discriminate).
  reflexivity.
Qed.

Lemma new_Date_iso h t :
  Z.abs t <= maxTime ->
  new_Date h (Some (FJson (JStr (toISOString t)))) = Some t.
Proof.
  intros H. cbn [new_Date ToString]. unfold Date_parse.
  rewrite iso_parse_toISOString by exact H. unfold TimeClip.
  destruct (Z.leb_spec (Z.abs t) maxTime); [reflexivity | lia].
Qed.

Lemma revive_reminder h r t :
  time r = Some t -> Z.abs t <= maxTime ->
  revive h (to_json (obj r)) = Some (obj r).
Proof.
  intros Ht Hr. rewrite (to_json_obj r t Ht). unfold revive, reminder_json.
  change (get_time (JObj [(k_id, JStr (id r)); (k_name, JStr (name r));
                          (k_time, JStr (toISOString t));
                          (k_repeatCount, JNum (Int (repeatCount r)))]))
    with (Some (Some (JStr (toISOString t)))).
  cbv iota beta. cbn [option_map converts ToString].
  rewrite new_Date_iso by exact Hr.
  destruct r as [i n tm c]. cbn [time] in Ht. subst tm. reflexivity.
Qed.

Lemma safe_integer_prints c : Z.abs c <= 9007199254740991 -> Z.abs c < 10 ^ 21.
Proof. intros H. eapply Z.le_lt_trans; [exact H | reflexivity]. Qed.

Lemma wf_reminder_json r :
  wf_reminder r -> is_reminder_json (to_json (obj r)).
Proof.
  intros [(t & Ht & _) Hc]. exists (id r), (name r), t, (repeatCount r).
  split; [now apply to_json_obj | now apply safe_integer_prints].
Qed.

(** What [saveReminders] writes for reminders of the data model,
    [loadReminders] decodes to the same objects. *)
Theorem decode_stringify h X :
  Forall wf_reminder X ->
  decode h (JSON_stringify (map obj X)) = Some (map obj X).
Proof.
  intros F. unfold decode, JSON_stringify.
  rewrite JSON_parse_reminders.
  - induction F as [|r X Hr F IH]; [reflexivity|].
    cbn [map map_opt]. destruct Hr as [(t & Ht & Hb) _].
    rewrite (revive_reminder h r t Ht Hb). cbv iota beta in *.
    now rewrite IH.
  - rewrite Forall_map. rewrite Forall_map.
    eapply Forall_impl; [|exact F]. apply wf_reminder_json.
Qed.


(** ** Save and load *)

Lemma as_Reminder_obj r : as_Reminder (obj r) = Some r.
Proof. destruct r. reflexivity. Qed.

Lemma truthy_stringify l : truthy (JSON_stringify l) = true.
Proof. reflexivity. Qed.

Lemma persisted_setItem h X s :
  Forall wf_reminder X ->
  persisted h (setItem (JSON_stringify (map obj X)) s) = map obj X.
Proof.
  intros F. unfold persisted, setItem. cbn [storage].
  rewrite truthy_stringify. now rewrite (decode_stringify h X F).
Qed.

(** C7: a collection of reminders of the data model (valid time values,
    repeat counts a double holds exactly) that is saved and then loaded
    comes back as the same list: same length and order, same ids, names,
    repeat counts, and the same time values to the millisecond. *)
Theorem C7_save_load_roundtrip h run_save run_load s X :
  Forall wf_reminder X ->
  storage_ok run_save = true -> storage_ok run_load = true ->
  reminders (loadReminders h run_load (saveReminders run_save (map obj X) s))
  = map obj X
  /\ map as_Reminder
       (reminders (loadReminders h run_load
                     (saveReminders run_save (map obj X) s)))
     = map Some X.
Proof.
  intros F Hs Hl.
  assert (E : reminders (loadReminders h run_load
                           (saveReminders run_save (map obj X) s))
              = map obj X).
  { unfold saveReminders, loadReminders. rewrite Hs, Hl.
    unfold setItem at 1. cbn [storage]. rewrite truthy_stringify.
    rewrite (decode_stringify h X F). reflexivity. }
  split; [exact E|]. rewrite E, map_map.
  apply map_ext. apply as_Reminder_obj.
Qed.

Lemma wf_pills : wf_reminder pills.
Proof.
  split; [exists t_jan15_1400; split; [reflexivity|]|]; vm_compute;
    discriminate.
Qed.

Lemma wf_water : wf_reminder water.
Proof.
  split; [exists t_jan15_1530; split; [reflexivity|]|]; vm_compute;
    discriminate.
Qed.

Lemma C7_save_load_roundtrip_witness :
  reminders (loadReminders utc_host run0
               (saveReminders run0 (map obj [pills; pills])
                  (mount t_jan15_1000 None [])))
  = map obj [pills; pills].
Proof.
  refine (proj1 (C7_save_load_roundtrip utc_host run0 run0
                   (mount t_jan15_1000 None []) [pills; pills] _ _ _)).
  - repeat constructor; try (exists t_jan15_1400; split; [reflexivity|]);
      vm_compute; discriminate.
  - reflexivity.
  - reflexivity.
Defined.


(** ** addReminder on valid input *)

Lemma addReminder_accepted h run s :
  input_rejected s = false ->
  addReminder h run s
  = setTime (Some (clock run 1))
      (setRepeatCount []
         (setName []
            (call_backend
               (scheduleNotification h (clock run 0) (obj (new_reminder run s)))
               (saveReminders run (reminders s ++ [obj (new_reminder run s)])
                  (setReminders (reminders s ++ [obj (new_reminder run s)])
                     s))))).
Proof. intros H. unfold addReminder. now rewrite H. Qed.





(** ** deleteReminder *)

Lemma id_differs_obj r i : id_differs (obj r) i = negb (jsstring_eqb (id r) i).
Proof. destruct r. reflexivity. Qed.

Lemma filter_map_obj i X :
  filter (fun o => id_differs o i) (map obj X)
  = map obj (filter (fun r => negb (jsstring_eqb (id r) i)) X).
Proof.
  induction X as [|r X IH]; [reflexivity|].
  cbn [map filter]. rewrite id_differs_obj.
  destruct (jsstring_eqb (id r) i); cbn [negb map]; now rewrite IH.
Qed.





Lemma reschedule_requests h run X : forall k,
  Forall (fun c => exists r, In r X
                             /\ c = scheduleNotificationAsync (reminder_request r))
         (reschedule h run k (map obj X)).
Proof.
  induction X as [|r X IH]; intros k; [constructor|].
  cbn [map reschedule]. change (resolves (obj r)) with true. cbv iota.
  apply Forall_app. split.
  - rewrite scheduleNotification_obj. apply Forall_forall.
    intros c Hc. apply repeat_spec in Hc. exists r. split; [now left | exact Hc].
  - eapply Forall_impl; [|apply (IH (S k))].
    intros c (r' & Hr & Ec). exists r'. split; [now right | exact Ec].
Qed.

Lemma pending_app l1 l2 :
  pending (l1 ++ l2)
  = fold_left (fun acc c =>
                 match c with
                 | scheduleNotificationAsync r => acc ++ [r]
                 | cancelAllScheduledNotificationsAsync => []
                 end) l2 (pending l1).
Proof. unfold pending. apply fold_left_app. Qed.

Lemma pending_schedules l : forall acc,
  forallb is_schedule l = true ->
  fold_left (fun acc c =>
               match c with
               | scheduleNotificationAsync r => acc ++ [r]
               | cancelAllScheduledNotificationsAsync => []
               end) l acc
  = acc ++ requests_of l.
Proof.
  induction l as [|c l IH]; intros acc H; cbn [fold_left requests_of flat_map].
  - now rewrite app_nil_r.
  - cbn [forallb] in H. apply andb_true_iff in H. destruct H as [Hc Hl].
    destruct c as [q|]; [|discriminate]. rewrite IH by exact Hl.
    now rewrite <- app_assoc.
Qed.


Lemma deleteReminder_unfold h run i s :
  deleteReminder h run i s
  = call_backend
      (reschedule h run 0 (filter (fun r => id_differs r i) (reminders s)))
      (call_backend [cancelAllScheduledNotificationsAsync]
         (saveReminders run (filter (fun r => id_differs r i) (reminders s))
            (setReminders (filter (fun r => id_differs r i) (reminders s))
               s))).
Proof. reflexivity. Qed.


Lemma deleteReminder_storage h run i s :
  storage (deleteReminder h run i s)
  = if storage_ok run
    then Some (JSON_stringify (reminders (deleteReminder h run i s)))
    else storage s.
Proof.
  rewrite deleteReminder_reminders. rewrite deleteReminder_unfold.
  unfold saveReminders. destruct (storage_ok run); reflexivity.
Qed.

Lemma filter_split_length {A} (p : A -> bool) (l : list A) :
  (length (filter p l) + length (filter (fun x => negb (p x)) l)
   = length l)%nat.
Proof.
  induction l as [|a l IH]; [reflexivity|]. cbn [filter].
  destruct (p a); cbn [negb length]; lia.
Qed.










(** The example of the specification: deleting A from {A, B} makes the
    backend see one cancel-all followed by the requests of B only. *)
Example delete_A_of_A_B :
  backend (deleteReminder utc_host run0 (str "0.42") two_reminders)
  = cancelAllScheduledNotificationsAsync
      :: repeat (scheduleNotificationAsync (reminder_request water)) 2.
Proof. reflexivity. Qed.

Lemma filter_all {A} (p : A -> bool) (l : list A) :
  (forall x, In x l -> p x = true) -> filter p l = l.
Proof.
  induction l as [|a l IH]; intros H; [reflexivity|].
  cbn [filter]. rewrite (H a) by now left.
  f_equal. apply IH. intros x Hx. apply H. now right.
Qed.





Example delete_absent_traffic :
  backend (deleteReminder utc_host run0 (str "0.99") two_reminders)
  = cancelAllScheduledNotificationsAsync
      :: repeat (scheduleNotificationAsync (reminder_request pills)) 3
      ++ repeat (scheduleNotificationAsync (reminder_request water)) 2.
Proof. reflexivity. Qed.

(** A name with a quote, a backslash, a line feed and an unpaired
    surrogate survives the store. *)
Example roundtrip_escapes :
  let r := {| id := str "0.5"; name := str "a" ++ [34%N; 92%N; 10%N; 55357%N];
              time := Some (-62167219200001); repeatCount := 7 |} in
  decode utc_host (JSON_stringify [obj r]) = Some [obj r].
Proof. vm_compute. reflexivity. Qed.

(** An Invalid Date does not survive it: it is written as null and read
    back as the epoch. *)
Example invalid_date_not_preserved :
  let r := {| id := str "0.5"; name := str "a"; time := None;
              repeatCount := 7 |} in
  decode utc_host (JSON_stringify [obj r])
  = Some [obj {| id := str "0.5"; name := str "a"; time := Some 0;
                 repeatCount := 7 |}].
Proof. vm_compute. reflexivity. Qed.


(** ** The fuel of JSON.parse is enough *)

Lemma skip_ws_length s : (length (skip_ws s) <= length s)%nat.
Proof.
  induction s as [|c s IH]; cbn [skip_ws length]; [lia|].
  destruct (is_json_ws c); cbn [length]; lia.
Qed.

Lemma expect_length c s r : expect c s = Some r -> length s = S (length r).
Proof.
  destruct s as [|x s]; cbn [expect]; [discriminate|].
  destruct (char_eqb x c); [|discriminate]. intros E; inversion E. reflexivity.
Qed.

Lemma parse_literal_length lit : forall s r,
  parse_literal lit s = Some r -> (length r <= length s)%nat.
Proof.
  induction lit as [|c lit IH]; intros s r; cbn [parse_literal].
  - intros E; inversion E. lia.
  - destruct (expect c s) as [r0|] eqn:E0; [|discriminate].
    intros E. apply IH in E. apply expect_length in E0. lia.
Qed.

Lemma parse_chars_length : forall n s t r,
  (length s <= n)%nat -> parse_chars s = Some (t, r) ->
  (length r < length s)%nat.
Proof.
  induction n as [|n IH]; intros s t r Hn; destruct s as [|c s];
    cbn [length] in Hn; try lia; cbn [parse_chars]; try discriminate.
  destruct (N.eqb c 34); [intros E; inversion E; cbn [length]; lia|].
  destruct (N.eqb c 92).
  - destruct s as [|e s1]; [discriminate|].
    assert (Hs1 : forall x t' r',
               (' (t0, rest) <- parse_chars s1 ;; Some (x :: t0, rest))
               = Some (t', r') -> (length r' < length (c :: e :: s1))%nat).
    { intros x t' r' E. destruct (parse_chars s1) as [[t0 rest]|] eqn:E1;
        [|discriminate]. inversion E; subst.
      apply IH in E1; cbn [length] in *; lia. }
    repeat match goal with
           | |- (if ?b then _ else _) = _ -> _ =>
               destruct b; [apply Hs1|]
           end.
    destruct (N.eqb e 117); [|discriminate].
    destruct s1 as [|a [|b [|c' [|d s2]]]]; try discriminate.
    destruct (hex_val a); [|discriminate]. destruct (hex_val b); [|discriminate].
    destruct (hex_val c'); [|discriminate]. destruct (hex_val d); [|discriminate].
    destruct (parse_chars s2) as [[t0 rest]|] eqn:E2; [|discriminate].
    intros E; inversion E; subst. apply IH in E2; cbn [length] in *; lia.
  - destruct (N.ltb c 32); [discriminate|].
    destruct (parse_chars s) as [[t0 rest]|] eqn:E1; [|discriminate].
    intros E; inversion E; subst. apply IH in E1; cbn [length] in *; lia.
Qed.

Lemma drop_digits_le val s :
  (length (drop_digits val s) + length (take_digits val s) <= length s)%nat.
Proof.
  induction s as [|c s IH]; cbn [drop_digits take_digits length]; [lia|].
  destruct (val c); cbn [length]; lia.
Qed.

Lemma parse_unsigned_length sign s n r :
  parse_unsigned sign s = Some (n, r) -> (length r < length s)%nat.
Proof.
  unfold parse_unsigned. cbv zeta.
  pose proof (drop_digits_le digit_val s) as H1.
  destruct (take_digits digit_val s) as [|d ip'] eqn:Ei; [discriminate|].
  cbn [length] in H1.
  destruct ((d =? 0) && negb (length ip' =? 0)%nat)%bool; [discriminate|].
  set (s1 := drop_digits digit_val s) in *.
  destruct (expect 46 s1) as [r1|] eqn:E46.
  - apply expect_length in E46.
    pose proof (drop_digits_le digit_val r1) as H2.
    destruct (take_digits digit_val r1) as [|f fp] eqn:Ef; [discriminate|].
    cbv iota beta.
    set (s2 := drop_digits digit_val r1) in *.
    destruct (match expect 101 s2 with Some r0 => Some r0 | None => expect 69 s2 end)
      as [r2|] eqn:Ee.
    + assert (He : length s2 = S (length r2)).
      { destruct (expect 101 s2) as [r0|] eqn:E1.
        - inversion Ee; subst. now apply expect_length in E1.
        - now apply expect_length in Ee. }
      destruct (expect 45 r2) as [r3|] eqn:E45;
        [|destruct (expect 43 r2) as [r3|] eqn:E43].
      * apply expect_length in E45. pose proof (drop_digits_le digit_val r3).
        destruct (take_digits digit_val r3); [discriminate|].
        intros E; inversion E; subst. lia.
      * apply expect_length in E43. pose proof (drop_digits_le digit_val r3).
        destruct (take_digits digit_val r3); [discriminate|].
        intros E; inversion E; subst. lia.
      * pose proof (drop_digits_le digit_val r2).
        destruct (take_digits digit_val r2); [discriminate|].
        intros E; inversion E; subst. lia.
    + intros E; inversion E; subst. lia.
  - cbv iota beta.
    destruct (match expect 101 s1 with Some r0 => Some r0 | None => expect 69 s1 end)
      as [r2|] eqn:Ee.
    + assert (He : length s1 = S (length r2)).
      { destruct (expect 101 s1) as [r0|] eqn:E1.
        - inversion Ee; subst. now apply expect_length in E1.
        - now apply expect_length in Ee. }
      destruct (expect 45 r2) as [r3|] eqn:E45;
        [|destruct (expect 43 r2) as [r3|] eqn:E43].
      * apply expect_length in E45. pose proof (drop_digits_le digit_val r3).
        destruct (take_digits digit_val r3); [discriminate|].
        intros E; inversion E; subst. lia.
      * apply expect_length in E43. pose proof (drop_digits_le digit_val r3).
        destruct (take_digits digit_val r3); [discriminate|].
        intros E; inversion E; subst. lia.
      * pose proof (drop_digits_le digit_val r2).
        destruct (take_digits digit_val r2); [discriminate|].
        intros E; inversion E; subst. lia.
    + intros E; inversion E; subst. lia.
Qed.

Lemma parse_number_length s n r :
  parse_number s = Some (n, r) -> (length r < length s)%nat.
Proof.
  unfold parse_number. destruct (expect 45 s) as [r0|] eqn:E.
  - intros H. apply parse_unsigned_length in H. apply expect_length in E. lia.
  - apply parse_unsigned_length.
Qed.

Lemma parse_fuel_spec f :
  fuel_spec parse_value f
  /\ fuel_spec parse_elements f
  /\ (forall acc, fuel_spec (fun f => parse_members f acc) f).
Proof.
  induction f as [|f (IHv & IHe & IHm)].
  { split; [|split]; [| |intros acc]; intros s v r E; discriminate E. }
  split; [|split].
  - intros s v r. cbn [parse_value].
    pose proof (skip_ws_length s) as Hw.
    destruct (skip_ws s) as [|c r0] eqn:Es; [discriminate|].
    cbn [length] in Hw.
    destruct (N.eqb c 123) eqn:E123.
    { pose proof (skip_ws_length r0) as Hw0.
      destruct (expect 125 (skip_ws r0)) as [r'|] eqn:E125.
      - intros E; inversion E; subst. apply expect_length in E125 as Hl'.
        split; [lia|]. intros f' Hf. destruct f' as [|f']; [lia|].
        cbn [parse_value]. now rewrite Es, E123, E125.
      - destruct (parse_members f [] r0) as [[m r'']|] eqn:Em; [|discriminate].
        intros E; inversion E; subst. destruct (IHm [] _ _ _ Em) as [Hl Hf0].
        split; [lia|]. intros f' Hf. destruct f' as [|f']; [lia|].
        cbn [parse_value]. rewrite Es, E123, E125, (Hf0 f') by lia.
        reflexivity. }
    destruct (N.eqb c 91) eqn:E91.
    { pose proof (skip_ws_length r0) as Hw0.
      destruct (expect 93 (skip_ws r0)) as [r'|] eqn:E93.
      - intros E; inversion E; subst. apply expect_length in E93 as Hl'.
        split; [lia|]. intros f' Hf. destruct f' as [|f']; [lia|].
        cbn [parse_value]. now rewrite Es, E123, E91, E93.
      - destruct (parse_elements f r0) as [[l r'']|] eqn:Ee; [|discriminate].
        intros E; inversion E; subst. destruct (IHe _ _ _ Ee) as [Hl Hf0].
        split; [lia|]. intros f' Hf. destruct f' as [|f']; [lia|].
        cbn [parse_value]. rewrite Es, E123, E91, E93, (Hf0 f') by lia.
        reflexivity. }
    destruct (N.eqb c 34) eqn:E34.
    { destruct (parse_chars r0) as [[t r']|] eqn:Ec; [|discriminate].
      intros E; inversion E; subst.
      apply (parse_chars_length (length r0)) in Ec as Hlc; [|lia].
      split; [lia|]. intros f' Hf. destruct f' as [|f']; [lia|].
      cbn [parse_value]. now rewrite Es, E123, E91, E34, Ec. }
    destruct (N.eqb c 116) eqn:E116.
    { destruct (parse_literal (str "rue") r0) as [r'|] eqn:El; [|discriminate].
      intros E; inversion E; subst. apply parse_literal_length in El as Hll.
      split; [lia|]. intros f' Hf. destruct f' as [|f']; [lia|].
      cbn [parse_value]. now rewrite Es, E123, E91, E34, E116, El. }
    destruct (N.eqb c 102) eqn:E102.
    { destruct (parse_literal (str "alse") r0) as [r'|] eqn:El; [|discriminate].
      intros E; inversion E; subst. apply parse_literal_length in El as Hll.
      split; [lia|]. intros f' Hf. destruct f' as [|f']; [lia|].
      cbn [parse_value]. now rewrite Es, E123, E91, E34, E116, E102, El. }
    destruct (N.eqb c 110) eqn:E110.
    { destruct (parse_literal (str "ull") r0) as [r'|] eqn:El; [|discriminate].
      intros E; inversion E; subst. apply parse_literal_length in El as Hll.
      split; [lia|]. intros f' Hf. destruct f' as [|f']; [lia|].
      cbn [parse_value]. now rewrite Es, E123, E91, E34, E116, E102, E110, El. }
    destruct (parse_number (c :: r0)) as [[n r']|] eqn:En; [|discriminate].
    intros E; inversion E; subst. pose proof (parse_number_length _ _ _ En) as Hn.
    cbn [length] in Hn.
    split; [lia|]. intros f' Hf. destruct f' as [|f']; [lia|].
    cbn [parse_value]. now rewrite Es, E123, E91, E34, E116, E102, E110, En.
  - intros s l r. cbn [parse_elements].
    destruct (parse_value f s) as [[v r1]|] eqn:Ev; [|discriminate].
    destruct (IHv _ _ _ Ev) as [Hl1 Hf1].
    pose proof (skip_ws_length r1) as Hw.
    destruct (expect 44 (skip_ws r1)) as [r'|] eqn:E44.
    + apply expect_length in E44 as Hl4.
      destruct (parse_elements f r') as [[l' r'']|] eqn:Ee; [|discriminate].
      intros E; inversion E; subst. destruct (IHe _ _ _ Ee) as [Hl2 Hf2].
      split; [lia|]. intros f' Hf. destruct f' as [|f']; [lia|].
      cbn [parse_elements].
      rewrite (Hf1 f') by lia. rewrite E44. rewrite (Hf2 f') by lia.
      reflexivity.
    + destruct (expect 93 (skip_ws r1)) as [r'|] eqn:E93; [|discriminate].
      apply expect_length in E93 as Hl3.
      intros E; inversion E; subst.
      split; [lia|]. intros f' Hf. destruct f' as [|f']; [lia|].
      cbn [parse_elements]. rewrite (Hf1 f') by lia. now rewrite E44, E93.
  - intros acc s m r. cbn [parse_members].
    pose proof (skip_ws_length s) as Hw.
    destruct (expect 34 (skip_ws s)) as [r0|] eqn:E34; [|discriminate].
    apply expect_length in E34 as Hl0.
    destruct (parse_chars r0) as [[k r1]|] eqn:Ek; [|discriminate].
    apply (parse_chars_length (length r0)) in Ek as Hl1; [|lia].
    pose proof (skip_ws_length r1) as Hw1.
    destruct (expect 58 (skip_ws r1)) as [r2|] eqn:E58; [|discriminate].
    apply expect_length in E58 as Hl2.
    destruct (parse_value f r2) as [[v r3]|] eqn:Ev; [|discriminate].
    destruct (IHv _ _ _ Ev) as [Hl3 Hf3].
    pose proof (skip_ws_length r3) as Hw3.
    destruct (expect 44 (skip_ws r3)) as [r'|] eqn:E44.
    + apply expect_length in E44 as Hl4.
      intros Em. destruct (IHm _ _ _ _ Em) as [Hl5 Hf5].
      split; [lia|]. intros f' Hf. destruct f' as [|f']; [lia|].
      cbn [parse_members]. rewrite E34, Ek, E58.
      rewrite (Hf3 f') by lia. rewrite E44. apply Hf5. lia.
    + destruct (expect 125 (skip_ws r3)) as [r'|] eqn:E125; [|discriminate].
      apply expect_length in E125 as Hl4.
      intros E; inversion E; subst.
      split; [lia|]. intros f' Hf. destruct f' as [|f']; [lia|].
      cbn [parse_members]. rewrite E34, Ek, E58.
      rewrite (Hf3 f') by lia. now rewrite E44, E125.
Qed.

(** The fuel [JSON_parse] gives is enough: a text that parses with any
    amount of fuel parses with that one, to the same value. *)
Theorem JSON_parse_fuel text f v r :
  parse_value f text = Some (v, r) ->
  parse_value (S (length text)) text = Some (v, r).
Proof.
  intros E. destruct (proj1 (parse_fuel_spec f) _ _ _ E) as [_ H].
  apply H. lia.
Qed.


(** * Further properties *)

(** ** scheduleNotification *)

Lemma filter_length_le_seq (p : nat -> bool) n :
  (length (filter p (seq 0 n)) <= n)%nat.
Proof.
  pose proof (filter_length_le p (seq 0 n)) as H. now rewrite length_seq in H.
Qed.

Lemma reminderTime_invalid h now r :
  time r = None -> reminderTime h now (obj r) = None.
Proof.
  intros H. unfold reminderTime. destruct r as [i n t c]. cbn [time] in H.
  subst t. reflexivity.
Qed.

Lemma filter_none {A} (p : A -> bool) (l : list A) :
  (forall x, In x l -> p x = false) -> filter p l = [].
Proof.
  induction l as [|a l IH]; intros H; [reflexivity|].
  cbn [filter]. rewrite (H a) by now left. apply IH. intros x Hx.
  apply H. now right.
Qed.

(** X1: [scheduleNotification] never issues more requests than the repeat
    count, and none at all when the repeat count is not positive or the
    reminder's time is an Invalid Date. *)
Theorem schedule_at_most_repeatCount h now r :
  (length (scheduleNotification h now (obj r)) <= Z.to_nat (repeatCount r))%nat
  /\ (repeatCount r <= 0 -> scheduleNotification h now (obj r) = [])
  /\ (time r = None -> scheduleNotification h now (obj r) = []).
Proof.
  rewrite scheduleNotification_obj, repeat_length.
  split; [apply filter_length_le_seq|]. split.
  - intros Hn. replace (Z.to_nat (repeatCount r)) with 0%nat by lia.
    reflexivity.
  - intros Ht. rewrite filter_none; [reflexivity|].
    intros i _. unfold occurrence. now rewrite (reminderTime_invalid h now r Ht).
Qed.

Lemma schedule_at_most_repeatCount_witness :
  scheduleNotification utc_host t_jan15_1000
    (obj {| id := str "0.1"; name := str "Pills"; time := None;
            repeatCount := 3 |}) = [].
Proof.
  apply (proj2 (proj2 (schedule_at_most_repeatCount utc_host t_jan15_1000
                         {| id := str "0.1"; name := str "Pills";
                            time := None; repeatCount := 3 |}))).
  reflexivity.
Defined.

(** The indices at or above a threshold, among the first [n]. *)
Lemma count_from (k : Z) (n : nat) :
  length (filter (fun i => k <=? Z.of_nat i) (seq 0 n))
  = Z.to_nat (Z.min (Z.of_nat n) (Z.of_nat n - k)).
Proof.
  induction n as [|n IH]; [simpl; lia|].
  rewrite seq_S, filter_app, length_app, IH. cbn [filter Nat.add].
  destruct (Z.leb_spec k (Z.of_nat n)); cbn [length]; lia.
Qed.

(** X2: the number of requests in closed form.  With base time [base]
    (the reminder's time moved to today's day of the month) and a repeat
    count [n >= 0], all occurrences within the range of time values,
    [scheduleNotification] issues [min n (n - 1 - floor((now - base) / 1h))]
    requests when that is positive and none otherwise: the occurrences
    skipped are exactly the earliest ones. *)
Theorem schedule_count_closed_form h now r base :
  reminderTime h now (obj r) = Some base ->
  0 <= repeatCount r ->
  - maxTime <= base -> base + repeatCount r * 3600000 <= maxTime ->
  length (scheduleNotification h now (obj r))
  = Z.to_nat (Z.min (repeatCount r)
                    (repeatCount r - 1 - (now - base) / 3600000)).
Proof.
  intros Hb Hn Hlo Hhi.
  rewrite scheduleNotification_obj, repeat_length.
  rewrite (filter_ext_in _ (fun i => (now - base) / 3600000 + 1 <=? Z.of_nat i)).
  - rewrite count_from, Z2Nat.id by exact Hn. f_equal. lia.
  - intros i Hi. apply in_seq in Hi.
    rewrite (occurrence_in_range h now r base i Hb)
      by (unfold maxTime in *; lia).
    cbn [date_gtb].
    destruct (Z.ltb_spec now (base + Z.of_nat i * 3600000));
      destruct (Z.leb_spec ((now - base) / 3600000 + 1) (Z.of_nat i));
      try reflexivity; exfalso; divmod; lia.
Qed.

Lemma schedule_count_closed_form_witness :
  length (scheduleNotification utc_host t_jan15_1530 (obj pills))
  = Z.to_nat (Z.min 3 (3 - 1 - (t_jan15_1530 - t_jan15_1400) / 3600000)).
Proof.
  apply (schedule_count_closed_form utc_host t_jan15_1530 pills t_jan15_1400).
  - reflexivity.
  - cbn [repeatCount pills]. lia.
  - unfold maxTime, t_jan15_1400. lia.
  - unfold maxTime, t_jan15_1400. cbn [repeatCount pills]. lia.
Defined.

Lemma lookup_time_obj r : lookup (obj r) k_time = Some (FDate (time r)).
Proof. destruct r. reflexivity. Qed.

(** X3: the requests of a reminder do not depend on its id: two
    reminders with the same name, time and repeat count produce the same
    backend calls, so the backend cannot tell whose they are. *)
Theorem schedule_ignores_id h now r1 r2 :
  name r1 = name r2 -> time r1 = time r2 -> repeatCount r1 = repeatCount r2 ->
  scheduleNotification h now (obj r1) = scheduleNotification h now (obj r2).
Proof.
  intros Hn Ht Hc. rewrite !scheduleNotification_obj.
  unfold reminder_request, occurrence, reminderTime.
  rewrite !lookup_time_obj. now rewrite Hn, Ht, Hc.
Qed.

Lemma schedule_ignores_id_witness :
  scheduleNotification utc_host t_jan15_1000 (obj pills)
  = scheduleNotification utc_host t_jan15_1000
      (obj {| id := str "0.99"; name := str "Pills";
              time := Some t_jan15_1400; repeatCount := 3 |}).
Proof.
  apply schedule_ignores_id; reflexivity.
Defined.

(** X19: for a reminder whose stored date lies in the current month, with
    today's occurrences in the range of time values, the requests of
    [scheduleNotification] are exactly one for each occurrence
    [todayAt(time) + i hours], [i] below the repeat count, that is strictly
    after [now]: the count the specification gives. *)
Theorem schedule_today_is_the_spec_count h now r :
  of_this_month h now r ->
  scheduleNotification h now (obj r)
  = requests_at r (occurrences_ahead h now r)
  /\ length (scheduleNotification h now (obj r))
     = length (occurrences_ahead h now r).
Proof.
  intros Hm. rewrite (scheduleNotification_today h now r Hm).
  split; [reflexivity|]. unfold requests_at. apply length_map.
Qed.

Lemma schedule_today_is_the_spec_count_witness :
  scheduleNotification utc_host t_jan15_1530 (obj pills)
  = requests_at pills [t_jan15_1400 + 7200000].
Proof.
  refine (proj1 (schedule_today_is_the_spec_count utc_host t_jan15_1530 pills
                   _)).
  exists t_jan15_1400.
  split; [reflexivity|]. split; [reflexivity|]. split; [reflexivity|].
  split; vm_compute; discriminate.
Defined.

(** X4: when the stored date lies in the current month and year of local
    time, the base time is today's date at the stored time of day, for
    every time zone rule, and every occurrence within the range of time
    values is that time plus [i] hours. *)
Theorem base_time_is_today_within_month h now r t :
  time r = Some t ->
  YearFromTime (LocalTime h t) = YearFromTime (LocalTime h now) ->
  MonthFromTime (LocalTime h t) = MonthFromTime (LocalTime h now) ->
  reminderTime h now (obj r) = TimeClip (todayAt h now t)
  /\ forall i,
       Z.abs (todayAt h now t) <= maxTime ->
       Z.abs (todayAt h now t + Z.of_nat i * 3600000) <= maxTime ->
       occurrence h now r i = Some (todayAt h now t + Z.of_nat i * 3600000).
Proof.
  intros Ht Hy Hm.
  pose proof (reminderTime_same_month h now r t Ht Hy Hm) as E.
  split; [exact E|]. intros i Hb Hi.
  apply occurrence_in_range; [|exact Hi].
  rewrite E. unfold TimeClip.
  destruct (Z.leb_spec (Z.abs (todayAt h now t)) maxTime); [reflexivity | lia].
Qed.

Lemma base_time_is_today_within_month_witness :
  reminderTime utc_host t_jan15_1000 (obj pills)
  = TimeClip (todayAt utc_host t_jan15_1000 t_jan15_1400)
  /\ occurrence utc_host t_jan15_1000 pills 2 = Some (t_jan15_1400 + 7200000).
Proof.
  pose proof (base_time_is_today_within_month utc_host t_jan15_1000 pills
                t_jan15_1400 eq_refl eq_refl eq_refl) as T.
  split; [exact (proj1 T)|].
  apply (proj2 T 2%nat); vm_compute; discriminate.
Defined.


(** ** addReminder *)

Lemma addReminder_rejected h run s :
  input_rejected s = true ->
  addReminder h run s
  = Alert_alert (str "Error")
      (str "Please enter a valid name and repeat count (1 or more).") s.
Proof. intros H. unfold addReminder. now rewrite H. Qed.

Lemma addReminder_backend h run s :
  backend (addReminder h run s)
  = backend s
    ++ (if input_rejected s then []
        else scheduleNotification h (clock run 0) (obj (new_reminder run s))).
Proof.
  destruct (input_rejected s) eqn:E.
  - unfold addReminder. rewrite E. cbn [backend Alert_alert].
    now rewrite app_nil_r.
  - rewrite (addReminder_accepted h run s E).
    unfold saveReminders. destruct (storage_ok run); reflexivity.
Qed.

(** X6: [addReminder] never cancels anything: the notifications pending
    before are still pending after, in the same order, followed by the
    requests of the new reminder when the input is accepted. *)
Theorem add_keeps_pending h run s :
  pending (backend (addReminder h run s))
  = pending (backend s)
    ++ (if input_rejected s then []
        else requests_of
               (scheduleNotification h (clock run 0)
                  (obj (new_reminder run s)))).
Proof.
  rewrite addReminder_backend, pending_app.
  destruct (input_rejected s).
  - cbn [fold_left]. now rewrite app_nil_r.
  - apply pending_schedules. apply scheduleNotification_is_schedule.
Qed.

(** X7: when the storage write of an accepted [addReminder] throws, the
    failure is only logged: the list still gets the new reminder and its
    requests are still issued, but the store keeps its old content, so the
    collection a later load reads does not contain the new reminder. *)
Theorem add_with_failed_write h run s :
  input_rejected s = false -> storage_ok run = false ->
  reminders (addReminder h run s) = reminders s ++ [obj (new_reminder run s)]
  /\ storage (addReminder h run s) = storage s
  /\ persisted h (addReminder h run s) = persisted h s
  /\ console (addReminder h run s)
     = console s ++ [str "Error saving reminders:"]
  /\ alerts (addReminder h run s) = alerts s
  /\ backend (addReminder h run s)
     = backend s
       ++ scheduleNotification h (clock run 0) (obj (new_reminder run s)).
Proof.
  intros Ha Hf. rewrite (addReminder_accepted h run s Ha).
  unfold saveReminders. rewrite Hf. repeat split.
Qed.

Lemma add_with_failed_write_witness :
  storage (addReminder utc_host offline (typing (str "Pills") (str "3")))
  = storage (typing (str "Pills") (str "3")).
Proof.
  apply (proj1 (proj2 (add_with_failed_write utc_host offline
                         (typing (str "Pills") (str "3")) eq_refl eq_refl))).
Defined.

(** ** deleteReminder *)

Lemma filter_app_fresh i l o :
  filter (fun r => id_differs r i) (l ++ [o])
  = filter (fun r => id_differs r i) l
    ++ (if id_differs o i then [o] else []).
Proof. rewrite filter_app. reflexivity. Qed.

Lemma id_differs_self r : id_differs (obj r) (id r) = false.
Proof.
  rewrite id_differs_obj.
  assert (E : jsstring_eqb (id r) (id r) = true) by now apply jsstring_eqb_eq.
  now rewrite E.
Qed.

(** X8: deleting the reminder just added gives back the list as it was
    before the add, provided no reminder of that list has the new id. *)
Theorem delete_undoes_add h run run' s :
  input_rejected s = false ->
  (forall o, In o (reminders s) -> id_differs o (random run) = true) ->
  reminders (deleteReminder h run' (random run) (addReminder h run s))
  = reminders s.
Proof.
  intros Ha Hfresh.
  rewrite deleteReminder_reminders, addReminder_reminders, Ha.
  rewrite filter_app_fresh, filter_all by exact Hfresh.
  change (random run) with (id (new_reminder run s)) at 1.
  rewrite id_differs_self. apply app_nil_r.
Qed.

Lemma delete_undoes_add_witness :
  reminders (deleteReminder utc_host run0 (random run0)
               (addReminder utc_host run0 (typing (str "Pills") (str "3"))))
  = reminders (typing (str "Pills") (str "3")).
Proof.
  apply delete_undoes_add; [reflexivity|]. intros o [].
Defined.

Lemma filter_filter {A} (p q : A -> bool) (l : list A) :
  filter p (filter q l) = filter (fun x => q x && p x)%bool l.
Proof.
  induction l as [|a l IH]; [reflexivity|]. cbn [filter].
  destruct (q a); cbn [filter andb]; [destruct (p a)|]; now rewrite IH.
Qed.

(** X9: deleting is idempotent and deletions commute, on the list and,
    when the writes resolve, on the store: deleting the same id twice
    leaves the list and the store that one delete leaves, and two ids can
    be deleted in either order. *)
Theorem delete_idempotent_and_commutes h r1 r2 r3 r4 i j s :
  storage_ok r2 = true -> storage_ok r4 = true ->
  reminders (deleteReminder h r2 i (deleteReminder h r1 i s))
  = reminders (deleteReminder h r1 i s)
  /\ (storage_ok r1 = true ->
      storage (deleteReminder h r2 i (deleteReminder h r1 i s))
      = storage (deleteReminder h r1 i s))
  /\ reminders (deleteReminder h r2 j (deleteReminder h r1 i s))
     = reminders (deleteReminder h r4 i (deleteReminder h r3 j s))
  /\ storage (deleteReminder h r2 j (deleteReminder h r1 i s))
     = storage (deleteReminder h r4 i (deleteReminder h r3 j s)).
Proof.
  intros H2 H4.
  assert (I : reminders (deleteReminder h r2 i (deleteReminder h r1 i s))
              = reminders (deleteReminder h r1 i s)).
  { rewrite !deleteReminder_reminders, filter_filter.
    apply filter_ext. intros o. now destruct (id_differs o i). }
  assert (C : reminders (deleteReminder h r2 j (deleteReminder h r1 i s))
              = reminders (deleteReminder h r4 i (deleteReminder h r3 j s))).
  { rewrite !deleteReminder_reminders, !filter_filter.
    apply filter_ext. intros o. apply andb_comm. }
  split; [exact I|]. split; [|split; [exact C|]].
  - intros H1.
    rewrite (deleteReminder_storage h r2 i (deleteReminder h r1 i s)), H2, I.
    rewrite (deleteReminder_storage h r1 i s). now rewrite H1.
  - rewrite !(deleteReminder_storage h _ _ (deleteReminder _ _ _ _)).
    now rewrite H2, H4, C.
Qed.

Lemma delete_idempotent_and_commutes_witness :
  storage (deleteReminder utc_host run0 (str "0.42")
             (deleteReminder utc_host run0 (str "0.42") two_reminders))
  = storage (deleteReminder utc_host run0 (str "0.42") two_reminders)
  /\ reminders (deleteReminder utc_host run0 (str "0.77")
                  (deleteReminder utc_host run0 (str "0.42") two_reminders))
     = reminders (deleteReminder utc_host run0 (str "0.42")
                    (deleteReminder utc_host run0 (str "0.77") two_reminders)).
Proof.
  split.
  - apply (proj1 (proj2 (delete_idempotent_and_commutes utc_host run0 run0
                           run0 run0 (str "0.42") (str "0.42") two_reminders
                           eq_refl eq_refl))).
    reflexivity.
  - apply (proj1 (proj2 (proj2 (delete_idempotent_and_commutes utc_host run0
                                  run0 run0 run0 (str "0.42") (str "0.77")
                                  two_reminders eq_refl eq_refl)))).
Defined.

(** X10: when the storage write of a [deleteReminder] throws, the store
    still holds the deleted reminder: the list loses it, yet a later load
    brings the whole previous collection back. *)
Theorem failed_delete_comes_back h run run' i s X :
  reminders s = map obj X -> Forall wf_reminder X ->
  storage s = Some (JSON_stringify (map obj X)) ->
  storage_ok run = false -> storage_ok run' = true ->
  reminders (deleteReminder h run i s)
  = map obj (filter (fun r => negb (jsstring_eqb (id r) i)) X)
  /\ reminders (loadReminders h run' (deleteReminder h run i s)) = map obj X.
Proof.
  intros HX F Hs Hf Hok. split.
  - rewrite deleteReminder_reminders, HX. apply filter_map_obj.
  - unfold loadReminders. rewrite Hok, deleteReminder_storage, Hf, Hs.
    rewrite truthy_stringify, (decode_stringify h X F). reflexivity.
Qed.


Lemma failed_delete_comes_back_witness :
  reminders (loadReminders utc_host run0
               (deleteReminder utc_host offline (str "0.42")
                  (setItem (JSON_stringify (map obj [pills; water]))
                     two_reminders)))
  = map obj [pills; water].
Proof.
  refine (proj2 (failed_delete_comes_back utc_host offline run0 (str "0.42")
                   (setItem (JSON_stringify (map obj [pills; water]))
                      two_reminders)
                   [pills; water] eq_refl _ eq_refl eq_refl eq_refl)).
  constructor; [apply wf_pills|]. constructor; [apply wf_water | constructor].
Defined.

(** X11: [deleteReminder] removes every reminder that carries the id,
    however many there are: no reminder left has it, and the list shrinks
    by the number of reminders that had it. *)
Theorem delete_removes_every_match h run i s X :
  reminders s = map obj X ->
  (length (reminders (deleteReminder h run i s)) + length (with_id i X)
   = length (reminders s))%nat
  /\ Forall (fun o => id_differs o i = true)
            (reminders (deleteReminder h run i s)).
Proof.
  intros HX. split.
  - rewrite deleteReminder_reminders, HX, filter_map_obj, !length_map.
    unfold with_id. rewrite Nat.add_comm.
    apply (filter_split_length (fun r => jsstring_eqb (id r) i) X).
  - rewrite deleteReminder_reminders. apply Forall_forall.
    intros o Ho. apply filter_In in Ho. tauto.
Qed.

Lemma delete_removes_every_match_witness :
  (length (reminders (deleteReminder utc_host run0 (str "0.42")
                        (setReminders (map obj [pills; water; pills])
                           (mount t_jan15_1000 None []))))
   + length (with_id (str "0.42") [pills; water; pills])
   = length (reminders (setReminders (map obj [pills; water; pills])
                          (mount t_jan15_1000 None []))))%nat.
Proof.
  apply (proj1 (delete_removes_every_match utc_host run0 (str "0.42")
                  (setReminders (map obj [pills; water; pills])
                     (mount t_jan15_1000 None []))
                  [pills; water; pills] eq_refl)).
Defined.

(** ** Invariants of the list *)

Lemma perform_accepted h a s :
  Forall accepted_reminder (reminders s) ->
  Forall accepted_reminder (reminders (perform h a s)).
Proof.
  intros F. destruct a as [run | run i | v | v | t]; cbn [perform].
  - rewrite addReminder_reminders. destruct (input_rejected s) eqn:E; [exact F|].
    apply Forall_app. split; [exact F|]. constructor; [|constructor].
    apply input_rejected_false in E. destruct E as [Hn (n & Hp & Hge)].
    exists (new_reminder run s). split; [reflexivity|].
    unfold new_reminder. cbn [name repeatCount]. rewrite Hp. now split.
  - rewrite deleteReminder_reminders. apply Forall_forall.
    intros o Ho. apply filter_In in Ho. destruct Ho as [Ho _].
    revert o Ho. now apply Forall_forall.
  - exact F.
  - exact F.
  - unfold onTimeChange. destruct t; exact F.
Qed.

(** X12: whatever the user does, every reminder of a list that started
    empty is a well-typed reminder with a non-empty name and a repeat count
    of at least 1. *)
Theorem list_holds_accepted_reminders h l s :
  reminders s = [] ->
  Forall accepted_reminder (reminders (perform_all h l s)).
Proof.
  intros He.
  assert (F : Forall accepted_reminder (reminders s))
    by (rewrite He; constructor).
  clear He. revert s F. induction l as [|a l IH]; intros s F; [exact F|].
  cbn [perform_all fold_left]. apply IH. now apply perform_accepted.
Qed.

Lemma list_holds_accepted_reminders_witness :
  Forall accepted_reminder
    (reminders (perform_all utc_host (two_adds run0 run1)
                  (mount t_jan15_1000 None []))).
Proof. apply list_holds_accepted_reminders. reflexivity. Defined.


(** ** Surviving a restart *)

Lemma wf_filter (p : Reminder -> bool) X :
  Forall wf_reminder X -> Forall wf_reminder (filter p X).
Proof.
  intros F. apply Forall_forall. intros r Hr. apply filter_In in Hr.
  destruct Hr as [Hr _]. revert r Hr. now apply Forall_forall.
Qed.

Lemma perform_mirrors h a s X :
  mirrors s X -> sane_action a s -> exists X', mirrors (perform h a s) X'.
Proof.
  intros (HX & F & Hst & Ht) Hs. unfold mirrors.
  destruct a as [run | run i | v | v | t]; cbn [perform sane_action] in *.
  - destruct Hs as (Hok & Hclk & Hmax).
    destruct (input_rejected s) eqn:E.
    + exists X. rewrite (addReminder_rejected h run s E).
      split; [exact HX|]. split; [exact F|]. split; [exact Hst | exact Ht].
    + exists (X ++ [new_reminder run s]).
      rewrite (addReminder_accepted h run s E).
      unfold saveReminders. rewrite Hok.
      cbn [reminders storage form_time setTime setRepeatCount setName
           call_backend setItem setReminders].
      rewrite map_app, HX. cbn [map].
      split; [reflexivity|]. split; [|split].
      * apply Forall_app. split; [exact F|]. constructor; [|constructor].
        apply input_rejected_false in E. destruct E as [_ (n & Hp & Hge)].
        split; [exact Ht|]. unfold new_reminder. cbn [repeatCount].
        rewrite Hp. cbn [number_value]. specialize (Hmax n Hp). lia.
      * right. reflexivity.
      * exists (clock run 1). split; [reflexivity | exact Hclk].
  - exists (filter (fun r => negb (jsstring_eqb (id r) i)) X).
    split; [rewrite deleteReminder_reminders, HX; apply filter_map_obj|].
    split; [now apply wf_filter|]. split.
    + right. rewrite deleteReminder_storage, Hs, deleteReminder_reminders, HX.
      now rewrite filter_map_obj.
    + rewrite deleteReminder_unfold. unfold saveReminders. rewrite Hs.
      exact Ht.
  - exists X. split; [exact HX|]. split; [exact F|]. split; [exact Hst | exact Ht].
  - exists X. split; [exact HX|]. split; [exact F|]. split; [exact Hst | exact Ht].
  - exists X. unfold onTimeChange. destruct t as [d|];
      (split; [exact HX|]; split; [exact F|]; split; [exact Hst|]);
      [exact Hs | exact Ht].
Qed.

Lemma perform_all_mirrors h l : forall s X,
  mirrors s X -> all_sane h l s -> exists X', mirrors (perform_all h l s) X'.
Proof.
  induction l as [|a l IH]; intros s X M Hs; [now exists X|].
  destruct Hs as [Ha Hl]. destruct (perform_mirrors h a s X M Ha) as [X' M'].
  cbn [perform_all fold_left]. exact (IH _ X' M' Hl).
Qed.

(** X13: on a fresh install, after any sequence of adds, deletes and form
    edits whose storage writes resolve and whose inputs are in range (valid
    clock readings and picked times, repeat counts that are safe integers),
    restarting the app, that is mounting on what the store then holds and
    loading, restores exactly the list the user had. *)
Theorem list_survives_restart h l now sched run' now' sched' :
  Z.abs now <= maxTime ->
  all_sane h l (mount now None sched) ->
  storage_ok run' = true ->
  reminders
    (loadReminders h run'
       (mount now' (storage (perform_all h l (mount now None sched))) sched'))
  = reminders (perform_all h l (mount now None sched)).
Proof.
  intros Hnow Hs Hok.
  assert (M0 : mirrors (mount now None sched) []).
  { split; [reflexivity|]. split; [constructor|]. split; [now left|].
    exists now. split; [reflexivity | exact Hnow]. }
  destruct (perform_all_mirrors h l _ [] M0 Hs) as (X & HX & F & Hst & _).
  rewrite HX. unfold loadReminders. rewrite Hok. cbn [storage mount].
  destruct Hst as [[Hn He] | Hst].
  - rewrite Hn, He. reflexivity.
  - rewrite Hst, truthy_stringify, (decode_stringify h X F). reflexivity.
Qed.



Lemma list_survives_restart_witness :
  reminders
    (loadReminders utc_host run0
       (mount t_jan15_1530
          (storage (perform_all utc_host (two_adds run0 run1)
                      (mount t_jan15_1000 None [])))
          []))
  = reminders (perform_all utc_host (two_adds run0 run1)
                 (mount t_jan15_1000 None [])).
Proof.
  apply list_survives_restart.
  - vm_compute. discriminate.
  - cbn [all_sane two_adds sane_action].
    split; [exact I|]. split; [exact I|]. split.
    { split; [reflexivity|]. split; [vm_compute; discriminate|].
      intros n E. vm_compute in E. inversion E. vm_compute. discriminate. }
    split; [exact I|]. split; [exact I|]. split; [|exact I].
    split; [reflexivity|]. split; [vm_compute; discriminate|].
    intros n E. vm_compute in E. inversion E. vm_compute. discriminate.
  - reflexivity.
Defined.


(** ** What loadReminders puts in the list *)

Lemma map_opt_length {A B} (f : A -> option B) (P : B -> Prop) :
  (forall x y, f x = Some y -> P y) ->
  forall l l', map_opt f l = Some l' -> length l' = length l /\ Forall P l'.
Proof.
  intros Hf. induction l as [|x l IH]; intros l'; cbn [map_opt].
  - intros E; inversion E. split; [reflexivity | constructor].
  - destruct (f x) as [y|] eqn:Ey; [|discriminate].
    destruct (map_opt f l) as [ys|]; [|discriminate].
    intros E; inversion E; subst. destruct (IH ys eq_refl) as [Hl HP].
    split; [cbn [length]; now rewrite Hl|].
    constructor; [now apply (Hf x) | exact HP].
Qed.

Lemma revive_has_Date h r o : revive h r = Some o -> has_Date_time o.
Proof.
  unfold revive. destruct (get_time r) as [t|]; [|discriminate].
  destruct (converts (option_map FJson t)); [|discriminate].
  intros E; inversion E; subst. eexists. apply lookup_obj_define.
Qed.

(** X14: [loadReminders] either leaves the list alone or replaces it by
    one object per element of the stored JSON array, dropping none and
    checking none; each of these objects has a [time] property that is a
    [Date], whatever the stored element held. *)
Theorem load_keeps_every_element h run s :
  reminders (loadReminders h run s) = reminders s
  \/ exists text js,
       storage s = Some text /\ JSON_parse text = Some (JArr js)
       /\ length (reminders (loadReminders h run s)) = length js
       /\ Forall has_Date_time (reminders (loadReminders h run s)).
Proof.
  unfold loadReminders.
  destruct (storage_ok run); [|now left].
  destruct (storage s) as [text|] eqn:Es; [|now left].
  destruct (truthy text); [|now left].
  destruct (decode h text) as [l|] eqn:Ed; [|now left].
  right. exists text. unfold decode in Ed.
  destruct (JSON_parse text) as [v|] eqn:Ep; [|discriminate].
  destruct v as [| | | |js|]; try discriminate.
  exists js. split; [reflexivity|]. split; [reflexivity|].
  cbn [reminders setReminders].
  exact (map_opt_length (revive h) has_Date_time (revive_has_Date h) js l Ed).
Qed.

(** ** configureNotifications and the mount effect *)

(** X15: [configureNotifications] prompts the user exactly when
    permission is not already granted; when permission ends up not granted
    it shows the "Permission required" dialog and registers no channel;
    when it ends up granted it shows nothing and registers the "reminders"
    channel exactly on Android.  It never touches the list, the store or
    the scheduled notifications. *)
Theorem configureNotifications_outcome d s :
  (In requestPermissionsAsync (snd (configureNotifications d s))
   <-> existingStatus d <> granted)
  /\ (finalStatus d <> granted ->
      fst (configureNotifications d s)
      = Alert_alert (str "Permission required")
          (str "Please enable notifications to use this app") s
      /\ forall i c,
           ~ In (setNotificationChannelAsync i c)
                (snd (configureNotifications d s)))
  /\ (finalStatus d = granted ->
      fst (configureNotifications d s) = s
      /\ (In (setNotificationChannelAsync (str "reminders") reminders_channel)
             (snd (configureNotifications d s))
          <-> OS d = android))
  /\ reminders (fst (configureNotifications d s)) = reminders s
  /\ storage (fst (configureNotifications d s)) = storage s
  /\ backend (fst (configureNotifications d s)) = backend s.
Proof.
  destruct d as [e q o]. unfold finalStatus, configureNotifications.
  cbn [existingStatus requestedStatus OS].
  destruct e, q, o; cbn [not_granted is_android fst snd app In];
    repeat match goal with
      | |- _ /\ _ => split
      | |- _ <-> _ => split
      | |- _ -> _ => intro
      | |- forall _, _ => intro
      | |- ~ _ => intro
      end;
    try reflexivity; try congruence;
    repeat match goal with
      | H : _ \/ _ |- _ => destruct H
      | H : False |- _ => destruct H
      end;
    try discriminate; try congruence; auto.
Qed.

Lemma configureNotifications_outcome_witness :
  fst (configureNotifications phone (mount t_jan15_1000 None []))
  = mount t_jan15_1000 None []
  /\ (In (setNotificationChannelAsync (str "reminders") reminders_channel)
         (snd (configureNotifications phone (mount t_jan15_1000 None [])))
      <-> OS phone = android).
Proof.
  apply (proj1 (proj2 (proj2 (configureNotifications_outcome phone
                                (mount t_jan15_1000 None []))))).
  reflexivity.
Defined.

Lemma loadReminders_Alert h run t m s :
  loadReminders h run (Alert_alert t m s)
  = Alert_alert t m (loadReminders h run s).
Proof.
  unfold loadReminders. cbn [storage Alert_alert].
  destruct (storage_ok run); [|reflexivity].
  destruct (storage s) as [text|] eqn:Es; [|reflexivity].
  destruct (truthy text); [|reflexivity].
  destruct (decode h text); reflexivity.
Qed.

Lemma loadReminders_quiet h run s :
  backend (loadReminders h run s) = backend s
  /\ storage (loadReminders h run s) = storage s
  /\ alerts (loadReminders h run s) = alerts s.
Proof.
  unfold loadReminders.
  destruct (storage_ok run); [|now repeat split].
  destruct (storage s) as [text|] eqn:Es; [|now repeat split].
  destruct (truthy text); [|now repeat split].
  destruct (decode h text); now repeat split.
Qed.

(** X16: the two effects run at mount, [loadReminders] and
    [configureNotifications], do not interfere: either order gives the same
    state and the same permission calls.  Whatever the store holds and
    whatever the permission answer, mounting schedules and cancels nothing
    and writes nothing to the store, so reminders loaded at start-up have
    no notification scheduled for them. *)
Theorem mount_effect_commutes_and_is_quiet h run d s :
  fst (mount_effect h run d s)
  = loadReminders h run (fst (configureNotifications d s))
  /\ snd (mount_effect h run d s) = snd (configureNotifications d s)
  /\ backend (fst (mount_effect h run d s)) = backend s
  /\ storage (fst (mount_effect h run d s)) = storage s.
Proof.
  unfold mount_effect.
  destruct (loadReminders_quiet h run s) as (Hb & Hs & _).
  unfold configureNotifications.
  destruct (not_granted (existingStatus d));
    destruct (not_granted _); try destruct (is_android (OS d));
    cbn [fst snd backend storage Alert_alert];
    rewrite ?loadReminders_Alert; repeat split; auto.
Qed.


(** ** The repeat count that addReminder reads *)

Lemma take_digits_prefix ds rest :
  Forall is_digit ds ->
  (rest = [] \/ exists c tl, rest = c :: tl /\ digit_val c = None) ->
  take_digits digit_val (map digit_char ds ++ rest) = ds.
Proof.
  intros F E. induction F as [|d ds Hd F IH]; cbn [map app].
  - destruct E as [->|(c & tl & -> & E)]; [reflexivity|].
    cbn [take_digits]. now rewrite E.
  - cbn [take_digits]. rewrite (digit_val_char d Hd). now rewrite IH.
Qed.

Lemma digits_value_from (ds : list Z) : forall acc,
  Forall is_digit ds -> 0 <= acc ->
  acc <= fold_left (fun a d => a * 10 + d) ds acc.
Proof.
  induction ds as [|d ds IH]; intros acc F H; cbn [fold_left]; [lia|].
  inversion F as [|x l Hd F']; subst. unfold is_digit in Hd.
  eapply Z.le_trans; [|apply IH; [exact F' | lia]]. lia.
Qed.

Lemma parseInt_leading_numeral d ds rest :
  Forall is_digit (d :: ds) -> d <> 0 ->
  (rest = [] \/ exists c tl, rest = c :: tl /\ digit_val c = None) ->
  parseInt (map digit_char (d :: ds) ++ rest)
  = Some (digits_value 10 (d :: ds))
  /\ 1 <= digits_value 10 (d :: ds).
Proof.
  intros F Hd E.
  assert (Hdig : is_digit d) by (inversion F; assumption).
  pose proof (digit_val_char d Hdig) as Hv.
  split.
  - unfold parseInt. cbn [map app].
    rewrite (trim_start_digit _ d _ Hv).
    rewrite (expect_digit _ d 45 _ Hv) by (left; reflexivity).
    rewrite (expect_digit _ d 43 _ Hv) by (left; reflexivity).
    cbv iota beta.
    assert (H48 : expect 48 (digit_char d :: map digit_char ds ++ rest) = None).
    { apply expect_other. unfold is_digit in Hdig. unfold digit_char.
      intros C.
      assert (Z : Z.of_N (Z.to_N (48 + d)) = 48) by (rewrite C; reflexivity).
      rewrite Z2N.id in Z by lia. lia. }
    rewrite H48. cbv iota beta.
    pose proof (take_digits_prefix (d :: ds) rest F E) as T.
    cbn [map app] in T. rewrite T. f_equal. lia.
  - unfold digits_value. cbn [fold_left].
    inversion F as [|x l _ F']; subst. unfold is_digit in Hdig.
    eapply Z.le_trans; [|apply digits_value_from; [exact F' | lia]]. lia.
Qed.

(** X17: [addReminder] reads the repeat count as the decimal numeral the
    input starts with and ignores whatever follows it: with a non-empty name
    and an input made of a numeral without leading zero, of value up to
    2^53 - 1, followed by anything that does not start with a digit (a
    decimal point, a unit, white space), the input is accepted and the
    reminder gets the value of the numeral, truncated rather than
    rounded. *)
Theorem add_reads_leading_numeral h run s d ds rest :
  form_name s <> [] ->
  form_repeatCount s = map digit_char (d :: ds) ++ rest ->
  Forall is_digit (d :: ds) -> d <> 0 ->
  digits_value 10 (d :: ds) <= MAX_SAFE_INTEGER ->
  (rest = [] \/ exists c tl, rest = c :: tl /\ digit_val c = None) ->
  input_rejected s = false
  /\ map as_Reminder (reminders (addReminder h run s))
     = map as_Reminder (reminders s)
       ++ [Some {| id := random run; name := form_name s;
                   time := form_time s;
                   repeatCount := digits_value 10 (d :: ds) |}].
Proof.
  intros Hn Hrc F Hd _ E.
  destruct (parseInt_leading_numeral d ds rest F Hd E) as [Hp Hge].
  assert (Ha : input_rejected s = false).
  { apply input_rejected_false. split; [exact Hn|].
    exists (digits_value 10 (d :: ds)). rewrite Hrc. now split. }
  split; [exact Ha|].
  rewrite addReminder_reminders, Ha, map_app. cbn [map].
  rewrite as_Reminder_obj. unfold new_reminder. rewrite Hrc, Hp. reflexivity.
Qed.

Lemma add_reads_leading_numeral_witness :
  input_rejected (typing (str "Pills") (str "2.9 times")) = false
  /\ map as_Reminder
       (reminders (addReminder utc_host run0
                     (typing (str "Pills") (str "2.9 times"))))
     = map as_Reminder (reminders (typing (str "Pills") (str "2.9 times")))
       ++ [Some {| id := random run0;
                   name := form_name (typing (str "Pills") (str "2.9 times"));
                   time := form_time (typing (str "Pills") (str "2.9 times"));
                   repeatCount := digits_value 10 [2] |}].
Proof.
  apply (add_reads_leading_numeral utc_host run0
           (typing (str "Pills") (str "2.9 times")) 2 [] (str ".9 times")).
  - discriminate.
  - reflexivity.
  - constructor; [unfold is_digit; lia | constructor].
  - discriminate.
  - vm_compute. discriminate.
  - right. eexists _, _. split; reflexivity.
Defined.

(** ** Objects that are not reminders *)

(** X18: for an object of the list that has no [repeatCount] property,
    or whose [repeatCount] is null, [scheduleNotification] issues no
    request: the loop bound is NaN or 0. *)
Theorem schedule_without_repeatCount h now o :
  lookup o k_repeatCount = None
  \/ lookup o k_repeatCount = Some (FJson JNull) ->
  scheduleNotification h now o = [].
Proof.
  intros [E|E]; unfold scheduleNotification; rewrite E;
    destruct (resolves o); reflexivity.
Qed.

Lemma schedule_without_repeatCount_witness :
  scheduleNotification utc_host t_jan15_1000 [(k_time, FDate None)] = [].
Proof.
  apply schedule_without_repeatCount. left. reflexivity.
Defined.

(** A stored record is loaded with a [repeatCount] that does not
    convert. *)
Example unconvertible_loaded :
  decode utc_host
    (str "[{" ++ quote (str "repeatCount") ++ str ":{"
     ++ quote (str "toString") ++ str ":1}}]")
  = Some [unconvertible].
Proof. reflexivity. Qed.



